(** * MagDronePost: the post-processing script [postProcess.py]

    A shallow embedding of the script that turns a MagComPy CSV into a
    reduced-to-pole GeoTIFF.  The script is one straight line of calls
    into pandas, verde, harmonica, xarray, numpy and rasterio; it is
    modelled as a computation in a writer/error monad: the effects
    (file read, web-service call, prints, figures, raster write) are
    recorded in an event log, and a Python exception ends the run.

    float64 numbers are modelled by exact rationals ([Q]); a float64
    cell that may be NaN is an [option Q], with [None] for NaN. *)

From Stdlib Require Import String List ZArith QArith Qround Bool Lia Arith.
From Stdlib Require Import Orders Mergesort Permutation Sorted Lqa.
Import ListNotations.
Local Open Scope string_scope.
Local Open Scope list_scope.
Local Open Scope Q_scope.
Set Warnings "-register-all".

(** ** Numbers and arrays *)

(** A float64 cell of an array: [None] is NaN. *)
Definition cell : Type := option Q.

(** A 2-D numpy array, as its rows. *)
Definition ndarray2 : Type := list (list cell).

Definition shape0 (a : ndarray2) : nat := length a.

Definition shape1 (a : ndarray2) : nat :=
  match a with
  | [] => O
  | r :: _ => length r
  end.

Definition isnan (c : cell) : bool :=
  match c with
  | None => true
  | Some _ => false
  end.

Definition ravel (a : ndarray2) : list cell := concat a.

(** [numpy.flipud]: the rows in reverse order. *)
Definition flipud (a : ndarray2) : ndarray2 := rev a.

(** Element-wise [series - k] (NaN stays NaN). *)
Definition series_sub (s : list cell) (k : Q) : list cell :=
  map (option_map (fun v => v - k)) s.

(** The non-NaN entries of an array. *)
Fixpoint dropna (l : list cell) : list Q :=
  match l with
  | [] => []
  | Some v :: t => v :: dropna t
  | None :: t => dropna t
  end.

(** All entries, when none of them is NaN. *)
Fixpoint all_finite (l : list cell) : option (list Q) :=
  match l with
  | [] => Some []
  | None :: _ => None
  | Some v :: t =>
      match all_finite t with
      | Some vs => Some (v :: vs)
      | None => None
      end
  end.

Fixpoint all_finite2 (a : ndarray2) : option (list (list Q)) :=
  match a with
  | [] => Some []
  | r :: t =>
      match all_finite r, all_finite2 t with
      | Some vs, Some rest => Some (vs :: rest)
      | _, _ => None
      end
  end.

(** ** Median *)

(** The order of the rationals, for the merge sort of the library. *)
Module QOrder <: Orders.TotalLeBool.
Definition t : Type := Q.
Definition leb (x y : Q) : bool := Qle_bool x y.
Lemma leb_total : forall x y, leb x y = true \/ leb y x = true.
Proof.
  intros x y. unfold leb. rewrite !Qle_bool_iff.
  destruct (Qlt_le_dec x y) as [H | H]; [left; apply Qlt_le_weak, H | right; exact H].
Qed.
End QOrder.

Module QSort := Mergesort.Sort QOrder.

(** [numpy.sort] of a NaN-free array. *)
Definition sort (l : list Q) : list Q := QSort.sort l.

(** Median of a list of numbers: the middle one of the sorted values,
    or the mean of the two middle ones when the count is even.  A
    float64 has one representation for a value, so the result is given
    in lowest terms.  (On an empty list numpy gives NaN; the callers
    below treat that case before they come here.) *)
Definition median (l : list Q) : Q :=
  let s := sort l in
  let n := length s in
  Qred (if Nat.even n
        then (nth (n / 2 - 1) s 0 + nth (n / 2) s 0) / 2
        else nth (n / 2) s 0).

(** [numpy.median]: NaN when the array is empty or holds a NaN. *)
Definition np_median (l : list cell) : cell :=
  match all_finite l with
  | Some [] => None
  | Some vs => Some (median vs)
  | None => None
  end.

(** [numpy.nanmedian]: the median of the non-NaN entries; NaN when
    there is none. *)
Definition np_nanmedian (l : list cell) : cell :=
  match dropna l with
  | [] => None
  | vs => Some (median vs)
  end.

(** [DataArray.fillna(value)]: NaN cells take [value]. *)
Definition fill_cell (value c : cell) : cell :=
  match c with
  | None => value
  | Some v => Some v
  end.

Definition fillna2 (value : cell) (a : ndarray2) : ndarray2 :=
  map (map (fill_cell value)) a.

(** ** Python values, exceptions and the run monad *)

(** The JSON-like value returned by the geomagnetic web service. *)
Inductive pyval : Type :=
| PyNum (q : Q)
| PyStr (s : string)
| PyDict (d : list (string * pyval)).

Inductive exn : Type :=
| FileNotFoundError (path : string)
| ParserError
| ConnectionError
| OSError (path : string)
| KeyError (key : string)
| AttributeError (name : string)
| TypeError
| IndexError
| ValueError (msg : string).

Inductive outcome (A : Type) : Type :=
| Ok (a : A)
| Raise (e : exn).
Arguments Ok {A} a.
Arguments Raise {A} e.

(** [d[key]] on a Python value. *)
Fixpoint lookup (key : string) (d : list (string * pyval)) : option pyval :=
  match d with
  | [] => None
  | (k, v) :: t => if String.eqb k key then Some v else lookup key t
  end.

Definition getitem (v : pyval) (key : string) : outcome pyval :=
  match v with
  | PyDict d =>
      match lookup key d with
      | Some x => Ok x
      | None => Raise (KeyError key)
      end
  | _ => Raise TypeError
  end.

(** A number handed to a numerical routine. *)
Definition as_float (v : pyval) : outcome Q :=
  match v with
  | PyNum q => Ok q
  | _ => Raise TypeError
  end.

(** A pandas data frame: its columns, by name. *)
Definition DataFrame : Type := list (string * list cell).

Fixpoint column (df : DataFrame) (name : string) : outcome (list cell) :=
  match df with
  | [] => Raise (KeyError name)
  | (k, c) :: t => if String.eqb k name then Ok c else column t name
  end.

Definition head (df : DataFrame) : DataFrame :=
  map (fun kc => (fst kc, firstn 5 (snd kc))) df.

(** An affine transform [| a b c ; d e f ; 0 0 1 |], as in the [affine]
    package that rasterio uses. *)
Record Affine : Type := mkAffine
  { af_a : Q; af_b : Q; af_c : Q; af_d : Q; af_e : Q; af_f : Q }.

(** What [rasterio.open(..., 'w', ...)] and [dst.write(arr, 1)] put in
    the file. *)
Record Raster : Type := mkRaster
  { ra_driver : string;
    ra_height : nat;
    ra_width : nat;
    ra_count : nat;
    ra_dtype : string;
    ra_crs : string;
    ra_transform : Affine;
    ra_band1 : ndarray2 }.

Inductive message : Type :=
| MsgField (totalIntensity inclination declination : pyval)
| MsgHead (rows : DataFrame)
| MsgOriginalSize (n : nat)
| MsgDecimatedSize (n : nat)
| MsgNans.

(** The effects of a run, in the order they happen. *)
Inductive event : Type :=
| EvReadCsv (path sep : string)
| EvCalculate (model : string) (latitude longitude altitude : Q) (date : string)
| EvPrint (m : message)
| EvFigure (title : string)
| EvRasterWrite (path : string) (r : Raster)
| EvShow.

(** A computation: the events it emitted and how it ended. *)
Definition M (A : Type) : Type := (list event * outcome A)%type.

Definition ret {A} (a : A) : M A := ([], Ok a).

Definition bind {A B} (m : M A) (f : A -> M B) : M B :=
  match snd m with
  | Ok a => let r := f a in (fst m ++ fst r, snd r)
  | Raise e => (fst m, Raise e)
  end.

Definition emit (e : event) : M unit := ([e], Ok tt).

(** A pure step that may raise. *)
Definition lift {A} (o : outcome A) : M A := ([], o).

Definition log {A} (m : M A) : list event := fst m.
Definition result {A} (m : M A) : outcome A := snd m.

Declare Scope run_scope.
Delimit Scope run_scope with run.
Notation "x <- m ;; k" := (bind m (fun x => k))
  (at level 61, m at next level, right associativity) : run_scope.
Notation "m ;;; k" := (bind m (fun _ => k))
  (at level 61, right associativity) : run_scope.
Local Open Scope run_scope.

(** The raster files written during a run. *)
Fixpoint rasters_written (l : list event) : list (string * Raster) :=
  match l with
  | [] => []
  | EvRasterWrite p r :: t => (p, r) :: rasters_written t
  | _ :: t => rasters_written t
  end.

Definition is_calculate (e : event) : bool :=
  match e with
  | EvCalculate _ _ _ _ _ => true
  | _ => false
  end.

Definition is_raster_write (e : event) : bool :=
  match e with
  | EvRasterWrite _ _ => true
  | _ => false
  end.

(** ** xarray objects *)

(** A 2-D [xarray.DataArray]: the names of its two dimensions, the
    coordinate values along each, and the values.  Rows run along
    dimension 0, columns along dimension 1. *)
Record DataArray : Type := mkDataArray
  { da_dims : string * string;
    da_coords0 : list Q;
    da_coords1 : list Q;
    da_values : ndarray2 }.

(** An [xarray.Dataset] of 2-D variables on one grid. *)
Record Dataset : Type := mkDataset
  { ds_dims : string * string;
    ds_coords0 : list Q;
    ds_coords1 : list Q;
    ds_vars : list (string * ndarray2) }.

(** What the variable [filled] of the script may hold. *)
Inductive xrobj : Type :=
| XDataArray (a : DataArray)
| XDataset (d : Dataset).

Fixpoint find_var (name : string) (vars : list (string * ndarray2))
  : option ndarray2 :=
  match vars with
  | [] => None
  | (k, a) :: t => if String.eqb k name then Some a else find_var name t
  end.

(** [ds.name]: the variable [name] of the data set, as a data array. *)
Definition getattr (ds : Dataset) (name : string) : outcome DataArray :=
  match find_var name (ds_vars ds) with
  | Some a => Ok (mkDataArray (ds_dims ds) (ds_coords0 ds) (ds_coords1 ds) a)
  | None => Raise (AttributeError name)
  end.

(** [ds.isnull().any()]: the data set that holds, for each variable,
    whether one of its cells is NaN. *)
Definition isnull_any (ds : Dataset) : list (string * bool) :=
  map (fun kv => (fst kv, existsb isnan (ravel (snd kv)))) (ds_vars ds).

(** The truth value of an [xarray.Dataset], which is what an [if]
    takes of it: whether the data set has a data variable, whatever the
    variables hold. *)
Definition truth_value {A} (vars : list (string * A)) : bool :=
  match vars with
  | [] => false
  | _ :: _ => true
  end.

(** [da.fillna(value)]. *)
Definition fillna (a : DataArray) (value : cell) : DataArray :=
  mkDataArray (da_dims a) (da_coords0 a) (da_coords1 a)
              (fillna2 value (da_values a)).

(** [ds.copy()]. *)
Definition copy (ds : Dataset) : Dataset := ds.

(** [da.to_dataset(name=...)]. *)
Definition to_dataset (a : DataArray) (name : string) : Dataset :=
  mkDataset (da_dims a) (da_coords0 a) (da_coords1 a) [(name, da_values a)].

(** [ds.to_array().values]: the variables stacked along a new leading
    axis. *)
Definition to_array_values (ds : Dataset) : list ndarray2 :=
  map snd (ds_vars ds).

(** [numpy.squeeze] on that stack, followed by the script's use of the
    result as a 2-D array ([shape[0]], [shape[1]]): with one variable
    on a grid whose sides are not of length one, squeezing leaves the
    2-D array of that variable; in any other case the result is not
    2-D and the raster is not written. *)
Definition squeeze2 (stack : list ndarray2) : outcome ndarray2 :=
  match stack with
  | [a] =>
      if (Nat.eqb (shape0 a) 1 || Nat.eqb (shape1 a) 1)%bool
      then Raise IndexError
      else Ok a
  | _ => Raise (ValueError "not a single 2-D band")
  end.

(** ** verde *)

(** A region [(W, E, S, N)]. *)
Record Region : Type := mkRegion
  { r_west : Q; r_east : Q; r_south : Q; r_north : Q }.

(** [region[i]]. *)
Definition region_nth (r : Region) (i : nat) : Q :=
  match i with
  | 0%nat => r_west r
  | 1%nat => r_east r
  | 2%nat => r_south r
  | _ => r_north r
  end.

Definition Qminimum (x : Q) (l : list Q) : Q :=
  fold_left (fun m v => if Qle_bool v m then v else m) l x.

Definition Qmaximum (x : Q) (l : list Q) : Q :=
  fold_left (fun m v => if Qle_bool m v then v else m) l x.

(** [vd.get_region]: the bounding box of the points; numpy's [min]
    raises on an empty array. *)
Definition get_region (coordinates : list (Q * Q)) : outcome Region :=
  match coordinates with
  | [] => Raise (ValueError "zero-size array to reduction operation minimum which has no identity")
  | (e, n) :: t =>
      Ok (mkRegion (Qminimum e (map fst t)) (Qmaximum e (map fst t))
                   (Qminimum n (map snd t)) (Qmaximum n (map snd t)))
  end.

(** [vd.pad_region(region, pad)]. *)
Definition pad_region (r : Region) (pad : Q) : Region :=
  mkRegion (r_west r - pad) (r_east r + pad)
           (r_south r - pad) (r_north r + pad).

Definition round_half_even (q : Q) : Z :=
  let f := Qfloor q in
  match Qcompare (q - inject_Z f)%Q (1 # 2)%Q with
  | Lt => f
  | Gt => (f + 1)%Z
  | Eq => if Z.even f then f else (f + 1)%Z
  end.

Definition linspace (start stop : Q) (num : nat) : list Q :=
  match num with
  | 0%nat => []
  | 1%nat => [start]
  | _ =>
      map (fun i => start + inject_Z (Z.of_nat i)
                            * ((stop - start) / inject_Z (Z.of_nat (num - 1))))
          (seq 0 num)
  end.

(** Modelled from the spec: the node lines of verde's grid, missing
    here; "a regular grid covering the padded data bounding box at a
    fixed cell size": [round((stop - start) / spacing) + 1] evenly
    spaced nodes from [start] to [stop]. *)
Definition grid_lines (start stop spacing : Q) : list Q :=
  linspace start stop
           (Z.to_nat (round_half_even ((stop - start) / spacing) + 1)).

(** [gridder.grid(region, spacing, dims, data_names)]: the fitted model
    [predict] evaluated at every node; rows follow the northing lines,
    columns the easting lines.  The two names of [dims] label
    dimension 0 and dimension 1 in that order. *)
Definition grid (predict : Q * Q -> cell) (region : Region) (spacing : Q)
    (dims : string * string) (data_names : string) : Dataset :=
  let east := grid_lines (r_west region) (r_east region) spacing in
  let north := grid_lines (r_south region) (r_north region) spacing in
  mkDataset dims north east
            [(data_names, map (fun n => map (fun e => predict (e, n)) east) north)].

(** Squared distance between two points of the plane. *)
Definition dist2 (p c : Q * Q) : Q :=
  (fst p - fst c) * (fst p - fst c) + (snd p - snd c) * (snd p - snd c).

(** Modelled from the spec: the criterion of [vd.distance_mask],
    missing here; "grid cells farther than a distance threshold from
    any input point are masked as invalid".  A node is kept when some
    data point is at distance at most [maxdist] from it. *)
Definition within (data_coordinates : list (Q * Q)) (maxdist : Q)
    (c : Q * Q) : bool :=
  existsb (fun p => Qle_bool (dist2 p c) (maxdist * maxdist)) data_coordinates.

(** The mask over the nodes of a grid: [coords1] holds the eastings of
    the columns, [coords0] the northings of the rows. *)
Definition mask_of (data_coordinates : list (Q * Q)) (maxdist : Q)
    (coords0 coords1 : list Q) : list (list bool) :=
  map (fun n => map (fun e => within data_coordinates maxdist (e, n)) coords1)
      coords0.

(** [arr.where(mask)]: NaN where the mask is false. *)
Definition where_row (r : list cell) (m : list bool) : list cell :=
  map (fun vb : cell * bool => if snd vb then fst vb else None) (combine r m).

Definition where2 (a : ndarray2) (m : list (list bool)) : ndarray2 :=
  map (fun rm : list cell * list bool => where_row (fst rm) (snd rm))
      (combine a m).

(** [vd.distance_mask(data_coordinates, maxdist, grid=ds)]. *)
Definition distance_mask (data_coordinates : list (Q * Q)) (maxdist : Q)
    (ds : Dataset) : Dataset :=
  let m := mask_of data_coordinates maxdist (ds_coords0 ds) (ds_coords1 ds) in
  mkDataset (ds_dims ds) (ds_coords0 ds) (ds_coords1 ds)
            (map (fun kv => (fst kv, where2 (snd kv) m)) (ds_vars ds)).

(** *** Block reduction *)

Definition sample : Type := ((Q * Q) * cell)%type.

(** The number of blocks along an axis: a whole number of blocks is
    fitted to the extent of the data, [round(extent / spacing)] of them. *)
Definition block_count (start stop spacing : Q) : Z :=
  round_half_even ((stop - start) / spacing).

(** The side of a block along an axis of [n] blocks: the spacing,
    adjusted so that the blocks fill the extent. *)
Definition block_side (start stop : Q) (n : Z) : Q :=
  (stop - start) / inject_Z n.

(** The index, along an axis of [n] blocks, of the block whose centre
    is nearest to [x]: the block that holds [x], the far end of the axis
    going to the last block.  (A point on the edge between two blocks
    goes to the upper one.) *)
Definition block_index (start stop : Q) (n : Z) (x : Q) : Z :=
  Z.min (n - 1) (Qfloor ((x - start) / block_side start stop n)).

(** The label of the block of a point: the blocks are laid over the
    bounding box of the data and numbered row by row from its
    south-west corner. *)
Definition block_of (box : Region) (ncols nrows : Z) (p : Q * Q) : Z :=
  (block_index (r_south box) (r_north box) nrows (snd p) * ncols
   + block_index (r_west box) (r_east box) ncols (fst p))%Z.

Definition labels (box : Region) (ncols nrows : Z) (samples : list sample)
  : list Z :=
  map (fun s => block_of box ncols nrows (fst s)) samples.

(** The labels that occur, each once, in increasing order (the order of
    the groups of [groupby]). *)
Definition occupied (nblocks : Z) (ls : list Z) : list Z :=
  filter (fun b => existsb (Z.eqb b) ls)
         (map Z.of_nat (seq 0 (Z.to_nat nblocks))).

Definition members (box : Region) (ncols nrows : Z) (b : Z)
    (samples : list sample) : list sample :=
  filter (fun s => Z.eqb (block_of box ncols nrows (fst s)) b) samples.

(** The aggregation with [reduction=np.median]: the median of the
    eastings, of the northings and of the values of a block. *)
Definition reduce_block (box : Region) (ncols nrows : Z)
    (samples : list sample) (b : Z) : sample :=
  let m := members box ncols nrows b samples in
  ((median (map (fun s => fst (fst s)) m), median (map (fun s => snd (fst s)) m)),
   np_median (map snd m)).

(** [vd.BlockReduce(reduction=np.median, spacing=...).filter(coordinates, data)].
    The bounding box of no point does not exist (ValueError), and an
    extent of less than half the spacing leaves no block along that axis
    (IndexError on the block centres). *)
Definition BlockReduce_filter (spacing : Q) (coordinates : list (Q * Q))
    (data : list cell) : outcome (list (Q * Q) * list cell) :=
  match get_region coordinates with
  | Raise e => Raise e
  | Ok box =>
      let ncols := block_count (r_west box) (r_east box) spacing in
      let nrows := block_count (r_south box) (r_north box) spacing in
      if ((ncols <=? 0)%Z || (nrows <=? 0)%Z)%bool
      then Raise IndexError
      else
        let samples := combine coordinates data in
        let out := map (reduce_block box ncols nrows samples)
                       (occupied (nrows * ncols)
                                 (labels box ncols nrows samples)) in
        Ok (map fst out, map snd out)
  end.

(** The easting and northing columns as points; the neighbour search
    of the reducer refuses NaN coordinates. *)
Definition points (xs ys : list cell) : outcome (list (Q * Q)) :=
  match all_finite xs, all_finite ys with
  | Some es, Some ns => Ok (combine es ns)
  | _, _ => Raise (ValueError "coordinates must be finite")
  end.

(** ** harmonica *)

(** The array [f r c] over the shape of [vs]. *)
Definition tabulate2 {A B} (vs : list (list A)) (f : nat -> nat -> B)
  : list (list B) :=
  map (fun r => map (fun c => f r c) (seq 0 (length (nth r vs []))))
      (seq 0 (length vs)).

(** Modelled from the spec: [hc.reduction_to_pole], missing here.  Its
    input is "a gridded total-field anomaly (with NaNs filled)", a
    single data array, and a grid that still holds NaN is a halting
    failure; its output is "a grid of identical shape/region with
    transformed values".  The frequency-domain operator is the
    parameter [kernel]: the value of the transformed grid at row [r]
    and column [c], from the whole input grid and the two angles. *)
Definition reduction_to_pole
    (kernel : list (list Q) -> Q -> Q -> nat -> nat -> Q)
    (g : xrobj) (inclination declination : pyval) : outcome DataArray :=
  match g with
  | XDataset _ => Raise (ValueError "the grid must be an xarray.DataArray")
  | XDataArray a =>
      match all_finite2 (da_values a) with
      | None => Raise (ValueError "found nan(s) on the passed grid")
      | Some vs =>
          match as_float inclination, as_float declination with
          | Ok i, Ok d =>
              Ok (mkDataArray (da_dims a) (da_coords0 a) (da_coords1 a)
                    (tabulate2 vs (fun r c => Some (kernel vs i d r c))))
          | Raise e, _ => Raise e
          | _, Raise e => Raise e
          end
      end
  end.

(** ** rasterio *)

Definition translation (xoff yoff : Q) : Affine := mkAffine 1 0 xoff 0 1 yoff.

Definition scale (sx sy : Q) : Affine := mkAffine sx 0 0 0 sy 0.

(** Product of two affine transforms (as 3x3 matrices). *)
Definition affine_mul (m n : Affine) : Affine :=
  mkAffine (af_a m * af_a n + af_b m * af_d n)
           (af_a m * af_b n + af_b m * af_e n)
           (af_a m * af_c n + af_b m * af_f n + af_c m)
           (af_d m * af_a n + af_e m * af_d n)
           (af_d m * af_b n + af_e m * af_e n)
           (af_d m * af_c n + af_e m * af_f n + af_f m).

(** [transform * (col, row)]: the map coordinates of a pixel corner. *)
Definition affine_apply (t : Affine) (col row : Q) : Q * Q :=
  (af_a t * col + af_b t * row + af_c t, af_d t * col + af_e t * row + af_f t).

Definition Qnat (n : nat) : Q := inject_Z (Z.of_nat n).

(** [rasterio.transform.from_bounds(west, south, east, north, width, height)]. *)
Definition from_bounds (west south east north : Q) (width height : nat)
  : Affine :=
  affine_mul (translation west north)
             (scale ((east - west) / Qnat width) ((south - north) / Qnat height)).

(** ** The outside world *)

(** What the run gets from outside: the file system, the web service
    of the British Geological Survey, and the floating-point kernels
    of the biharmonic spline and of the pole reduction. *)
Record Externals : Type := mkExternals
  { x_read_csv : string -> string -> outcome DataFrame;
    x_calculate : string -> Q -> Q -> Q -> String.string -> outcome pyval;
    x_spline : Q -> Q -> list (Q * Q) -> list cell -> Q * Q -> cell;
    x_rtp_kernel : list (list Q) -> Q -> Q -> nat -> nat -> Q;
    x_raster_open : string -> option exn }.

(** ** The script *)

(** *** Script inputs *)
Module Inputs.
Definition dir : string :=
  "//fsa-gpa-nas01.fsa.uliege.priv/geophysicalData/Drones/20230504-VielleMontagne/Mag/".
Definition data : string := "MeasureDir1_PostProcess1.csv".
Definition resultsTif : string := "Reduced2PoleDataSens.tif".
Definition latitude : Q := 50.6297580.
Definition longitude : Q := 5.478596.
Definition altitude : Q := 0.200.
Definition date : string := "2023-05-04".
Definition fieldCompute : string := " B1Tot".
End Inputs.

Definition spacingBlock : Q := 5.

(** [pd.read_csv(path, sep=sep)]. *)
Definition read_csv (X : Externals) (path sep : string) : M DataFrame :=
  emit (EvReadCsv path sep) ;;; lift (x_read_csv X path sep).

(** [MagneticFieldCalculator(model=model).calculate(...)]. *)
Definition calculate (X : Externals) (model : string)
    (latitude longitude altitude : Q) (date : string) : M pyval :=
  emit (EvCalculate model latitude longitude altitude date) ;;;
  lift (x_calculate X model latitude longitude altitude date).

(** [v[k1][k2]]. *)
Definition getitem2 (v : pyval) (k1 k2 : string) : outcome pyval :=
  match getitem v k1 with
  | Ok w => getitem w k2
  | Raise e => Raise e
  end.

Definition print (m : message) : M unit := emit (EvPrint m).

(** The values bound by the loading section of the script. *)
Record Site : Type := mkSite
  { data : DataFrame;
    results : pyval;
    inclinationSite : pyval;
    declinationSite : pyval;
    totalIntensity : pyval }.

(** Loading the files and computing parameters (lines 71-88). *)
Definition load (X : Externals) : M Site :=
  data <- read_csv X (Inputs.dir ++ Inputs.data) ";" ;;
  results <- calculate X "wmm" Inputs.latitude Inputs.longitude
                       Inputs.altitude Inputs.date ;;
  fieldCalc <- lift (getitem results "field-value") ;;
  inclinationSite <- lift (getitem2 fieldCalc "inclination" "value") ;;
  declinationSite <- lift (getitem2 fieldCalc "declination" "value") ;;
  totalIntensity <- lift (getitem2 fieldCalc "total-intensity" "value") ;;
  print (MsgField totalIntensity inclinationSite declinationSite) ;;;
  print (MsgHead (head data)) ;;;
  ret (mkSite data results inclinationSite declinationSite totalIntensity).

(** verde's input check: the data array has the shape of the
    coordinate arrays. *)
Definition check_fit_input (coordinates : list (Q * Q)) (values : list cell)
  : outcome unit :=
  if Nat.eqb (length coordinates) (length values)
  then Ok tt
  else Raise (ValueError "data arrays must have the same shape as coordinate arrays").

(** [reducer.filter((data[' X_BD72_m'], data[' Y_BD72_m']), data[fieldCompute]-48925)]
    (lines 96-98). *)
Definition decimate (data : DataFrame) : outcome (list (Q * Q) * list cell) :=
  match column data " X_BD72_m" with
  | Raise e => Raise e
  | Ok xs =>
      match column data " Y_BD72_m" with
      | Raise e => Raise e
      | Ok ys =>
          match column data Inputs.fieldCompute with
          | Raise e => Raise e
          | Ok b =>
              match points xs ys with
              | Raise e => Raise e
              | Ok pts =>
                  match check_fit_input pts (series_sub b 48925) with
                  | Raise e => Raise e
                  | Ok _ =>
                      BlockReduce_filter spacingBlock pts (series_sub b 48925)
                  end
              end
          end
      end
  end.

(** The NaN branch before the pole reduction (lines 152-156). *)
Definition fill (grid_full : Dataset) : M xrobj :=
  if truth_value (isnull_any grid_full)
  then
    print MsgNans ;;;
    a <- lift (getattr grid_full "total_field_anomaly") ;;
    ret (XDataArray (fillna a (np_nanmedian (ravel (da_values a)))))
  else ret (XDataset (copy grid_full)).

(** [rasterio.open(path, 'w', ...)] followed by [dst.write(arr, 1)]. *)
Definition rasterio_write (X : Externals) (path : string) (r : Raster)
  : M unit :=
  match x_raster_open X path with
  | Some e => lift (Raise e)
  | None => emit (EvRasterWrite path r)
  end.

(** The raster that the script declares for a region and a final
    array (lines 192-202). *)
Definition raster_of (region : Region) (reducedMag : ndarray2) : Raster :=
  mkRaster "GTiff" (shape0 reducedMag) (shape1 reducedMag) 1 "float64"
           "EPSG:31370"
           (from_bounds (region_nth region 0) (region_nth region 2)
                        (region_nth region 1) (region_nth region 3)
                        (shape1 reducedMag) (shape0 reducedMag))
           reducedMag.

(** Saving the grid in GeoTiff (lines 182-204). *)
Definition save (X : Externals) (region : Region) (gridReduced : Dataset)
  : M ndarray2 :=
  squeezed <- lift (squeeze2 (to_array_values gridReduced)) ;;
  let reducedMag := flipud squeezed in
  rasterio_write X (Inputs.dir ++ Inputs.resultsTif)
                 (raster_of region reducedMag) ;;;
  emit EvShow ;;;
  ret reducedMag.

(** [vd.Spline(mindist, damping).fit(coordinates, data)] (lines 115-117):
    the fit refuses data that hold a NaN; what it yields is the fitted
    surface, to be evaluated at any point. *)
Definition spline_fit (X : Externals) (mindist damping : Q)
    (coordinates : list (Q * Q)) (data : list cell)
  : outcome (Q * Q -> cell) :=
  if existsb isnan data
  then Raise (ValueError "array must not contain infs or NaNs")
  else Ok (x_spline X mindist damping coordinates data).

(** The values bound by the post-processing section of the script. *)
Record Products : Type := mkProducts
  { coordinates : list (Q * Q);
    magField : list cell;
    region : Region;
    grid_full : Dataset;
    masked_grid : Dataset;
    filled : xrobj;
    rtp_grid : DataArray;
    gridReduced : Dataset;
    reducedMag : ndarray2 }.

(** Post-processing of file and saving (lines 96-204).  The script's
    variable [grid] is the field [masked_grid]. *)
Definition post_process (X : Externals) (data : DataFrame)
    (inclinationSite declinationSite : pyval) : M Products :=
  cm <- lift (decimate data) ;;
  let coordinates := fst cm in
  let magField := snd cm in
  size <- lift (column data Inputs.fieldCompute) ;;
  print (MsgOriginalSize (length size)) ;;;
  print (MsgDecimatedSize (length magField)) ;;;
  emit (EvFigure "5 m Block Reduced Dataset") ;;;
  spline <- lift (spline_fit X 500 (1 # 10000000000) coordinates magField) ;;
  box <- lift (get_region coordinates) ;;
  let region := pad_region box 50 in
  let grid_full :=
    grid spline region 1 ("easting", "northing") "total_field_anomaly" in
  let masked := distance_mask coordinates 20 grid_full in
  emit (EvFigure "Magnetic anomaly gridded with biharmonic spline") ;;;
  filled <- fill grid_full ;;
  rtp_grid <- lift (reduction_to_pole (x_rtp_kernel X) filled
                                      inclinationSite declinationSite) ;;
  let gridReduced :=
    distance_mask coordinates 20 (to_dataset rtp_grid "total_field_anomaly") in
  emit (EvFigure "Magnetic anomaly reduced to pole") ;;;
  reducedMag <- save X region gridReduced ;;
  ret (mkProducts coordinates magField region grid_full masked filled
                  rtp_grid gridReduced reducedMag).

(** The whole script. *)
Definition script (X : Externals) : M (Site * Products) :=
  s <- load X ;;
  p <- post_process X (data s) (inclinationSite s) (declinationSite s) ;;
  ret (s, p).

(** The two files of a run. *)
Definition csv_path : string := Inputs.dir ++ Inputs.data.
Definition tif_path : string := Inputs.dir ++ Inputs.resultsTif.

(** The answer of the web service to the script's one request. *)
Definition service_answer (X : Externals) : outcome pyval :=
  x_calculate X "wmm" Inputs.latitude Inputs.longitude Inputs.altitude
              Inputs.date.

(** The three values that the script reads in the answer. *)
Definition read_field (answer : pyval) : outcome (pyval * pyval * pyval) :=
  match getitem answer "field-value" with
  | Raise e => Raise e
  | Ok fieldCalc =>
      match getitem2 fieldCalc "inclination" "value" with
      | Raise e => Raise e
      | Ok i =>
          match getitem2 fieldCalc "declination" "value" with
          | Raise e => Raise e
          | Ok d =>
              match getitem2 fieldCalc "total-intensity" "value" with
              | Raise e => Raise e
              | Ok t => Ok (i, d, t)
              end
          end
      end
  end.

(** What the run has settled once it ends normally: each variable of
    the script as the value of the statement that binds it. *)
Definition completed (X : Externals) (s : Site) (p : Products) : Prop :=
  x_read_csv X csv_path ";" = Ok (data s)
  /\ service_answer X = Ok (results s)
  /\ read_field (results s)
     = Ok (inclinationSite s, declinationSite s, totalIntensity s)
  /\ decimate (data s) = Ok (coordinates p, magField p)
  /\ (exists box, get_region (coordinates p) = Ok box
                  /\ region p = pad_region box 50)
  /\ grid_full p
     = grid (x_spline X 500 (1 # 10000000000) (coordinates p) (magField p))
            (region p) 1 ("easting", "northing") "total_field_anomaly"
  /\ masked_grid p = distance_mask (coordinates p) 20 (grid_full p)
  /\ result (fill (grid_full p)) = Ok (filled p)
  /\ reduction_to_pole (x_rtp_kernel X) (filled p) (inclinationSite s)
                       (declinationSite s) = Ok (rtp_grid p)
  /\ gridReduced p
     = distance_mask (coordinates p) 20
                     (to_dataset (rtp_grid p) "total_field_anomaly")
  /\ (exists squeezed, squeeze2 (to_array_values (gridReduced p)) = Ok squeezed
                       /\ reducedMag p = flipud squeezed)
  /\ x_raster_open X tif_path = None
  /\ existsb isnan (magField p) = false.

(** Every row of the array has [w] cells. *)
Definition rows_of_width {A} (w : nat) (a : list (list A)) : Prop :=
  Forall (fun r => length r = w) a.

(** [m] is a median of the numbers [vs]: with [s] the numbers in
    increasing order, the middle one when the count is odd, the mean of
    the two middle ones when it is even. *)
Definition is_median (vs : list Q) (m : Q) : Prop :=
  exists s,
    Permutation vs s /\ Sorted Qle s
    /\ ((exists n, length s = (2 * n + 1)%nat /\ m == nth n s 0)
        \/ (exists n, length s = (2 * n + 2)%nat
                      /\ m == (nth n s 0 + nth (S n) s 0) / 2)).

(** ** Cells of a grid *)

(** [a[i, j]], when the array has such an entry. *)
Definition at2 {A} (a : list (list A)) (i j : nat) : option A :=
  match nth_error a i with
  | Some r => nth_error r j
  | None => None
  end.

(** The anomaly of a grid at row [i] and column [j]. *)
Definition anomaly_at (ds : Dataset) (i j : nat) : option cell :=
  match find_var "total_field_anomaly" (ds_vars ds) with
  | Some a => at2 a i j
  | None => None
  end.

(** Whether the distance criterion masks the node at row [i] and
    column [j] of a grid. *)
Definition masked_by_distance (data_coordinates : list (Q * Q)) (maxdist : Q)
    (ds : Dataset) (i j : nat) : option bool :=
  match nth_error (ds_coords0 ds) i, nth_error (ds_coords1 ds) j with
  | Some n, Some e => Some (negb (within data_coordinates maxdist (e, n)))
  | _, _ => None
  end.

(** The object is a single data array, the form of input that the pole
    reduction takes. *)
Definition is_data_array (o : xrobj) : bool :=
  match o with
  | XDataArray _ => true
  | XDataset _ => false
  end.

(** The computation ended without an exception. *)
Definition ends_normally {A} (m : M A) : bool :=
  match result m with
  | Ok _ => true
  | Raise _ => false
  end.

(** Whether the anomaly of a grid holds a NaN cell. *)
Definition anomaly_has_nan (ds : Dataset) : bool :=
  match find_var "total_field_anomaly" (ds_vars ds) with
  | Some a => existsb isnan (ravel a)
  | None => false
  end.

Definition is_nans_message (e : event) : bool :=
  match e with
  | EvPrint MsgNans => true
  | _ => false
  end.

(** What the NaN branch did in a run that ended normally: whether the
    full grid held a NaN cell, whether the message of the branch was
    printed, and whether [filled] is a single data array. *)
Definition nan_branch_report (m : M (Site * Products))
  : option (bool * bool * bool) :=
  match result m with
  | Ok (_, p) =>
      Some (anomaly_has_nan (grid_full p), existsb is_nans_message (log m),
            is_data_array (filled p))
  | Raise _ => None
  end.


(** ** The same run with another total intensity *)

Definition outcome_map {A B} (f : A -> B) (o : outcome A) : outcome B :=
  match o with
  | Ok a => Ok (f a)
  | Raise e => Raise e
  end.


(** [d] with the value under [key] replaced by its image under [f]. *)
Fixpoint update (key : string) (f : pyval -> pyval) (d : list (string * pyval))
  : list (string * pyval) :=
  match d with
  | [] => []
  | (k, v) :: t =>
      if String.eqb k key then (k, f v) :: t else (k, v) :: update key f t
  end.

Definition update_item (key : string) (f : pyval -> pyval) (v : pyval)
  : pyval :=
  match v with
  | PyDict d => PyDict (update key f d)
  | _ => v
  end.

(** The answer of the service with [t] as the value of the total
    intensity, and nothing else changed. *)
Definition set_total_intensity (t : pyval) (answer : pyval) : pyval :=
  update_item "field-value"
    (update_item "total-intensity" (update_item "value" (fun _ => t)))
    answer.

(** The world in which the service answers with total intensity [t]. *)
Definition with_total_intensity (t : pyval) (X : Externals) : Externals :=
  mkExternals
    (x_read_csv X)
    (fun model latitude longitude altitude date =>
       match x_calculate X model latitude longitude altitude date with
       | Ok answer => Ok (set_total_intensity t answer)
       | Raise e => Raise e
       end)
    (x_spline X) (x_rtp_kernel X) (x_raster_open X).

(** The products of a run, when it ends normally. *)
Definition products {A} (o : outcome (A * Products)) : outcome Products :=
  match o with
  | Ok sp => Ok (snd sp)
  | Raise e => Raise e
  end.

(** ** A small survey, for concrete runs *)

Definition example_csv : DataFrame :=
  [(" X_BD72_m", [Some 0; Some 1; Some 7; Some 8]);
   (" Y_BD72_m", [Some 0; Some 2; Some 1; Some 3]);
   (" B1Tot", [Some 48930; Some 48940; Some 48900; Some 48950])].

Definition example_answer (totalIntensity : Q) : pyval :=
  PyDict
    [("field-value",
      PyDict [("total-intensity", PyDict [("value", PyNum totalIntensity)]);
              ("declination", PyDict [("value", PyNum 2.1025)]);
              ("inclination", PyDict [("value", PyNum 65.8927)])])].

(** A world where the file and the service are there; the spline has
    a value everywhere, and the pole reduction adds one. *)
Definition example_world : Externals :=
  mkExternals
    (fun _ _ => Ok example_csv)
    (fun _ _ _ _ _ => Ok (example_answer 48925))
    (fun _ _ _ _ c => Some (fst c + snd c))
    (fun vs _ _ r c => nth c (nth r vs []) 0 + 1)
    (fun _ => None).


(** The same world with a spline that has no value anywhere. *)
Definition example_world_all_nan : Externals :=
  mkExternals (x_read_csv example_world) (x_calculate example_world)
              (fun _ _ _ _ _ => None)
              (x_rtp_kernel example_world) (x_raster_open example_world).

(** The same world with the web service down. *)
Definition example_world_offline : Externals :=
  mkExternals (x_read_csv example_world)
              (fun _ _ _ _ _ => Raise ConnectionError)
              (x_spline example_world)
              (x_rtp_kernel example_world) (x_raster_open example_world).

(** The same world without the CSV file. *)
Definition example_world_no_file : Externals :=
  mkExternals (fun path _ => Raise (FileNotFoundError path))
              (x_calculate example_world) (x_spline example_world)
              (x_rtp_kernel example_world) (x_raster_open example_world).

(** Four points and their anomalies, two per block. *)
Definition example_points : list (Q * Q) := [(0, 0); (1, 2); (7, 1); (8, 3)].
Definition example_values : list cell :=
  [Some 5; Some 15; Some (-25); Some 25].

(** Two points farther apart than the spacing of 5, and their
    anomalies. *)
Definition example_far_points : list (Q * Q) := [(0, 0); (7, 7)].
Definition example_far_values : list cell := [Some 1; Some 3].

(** The four points above in another order of the rows. *)
Definition example_points_shuffled : list (Q * Q) :=
  [(8, 3); (0, 0); (7, 1); (1, 2)].
Definition example_values_shuffled : list cell :=
  [Some 25; Some 5; Some (-25); Some 15].

(** A grid of four nodes, 100 m apart, one of them without value. *)
Definition example_grid : Dataset :=
  mkDataset ("easting", "northing") [0; 100] [0; 100]
            [("total_field_anomaly", [[Some 1; Some 2]; [None; Some 4]])].

(** The same four nodes, each with a value. *)
Definition example_grid_full : Dataset :=
  mkDataset ("easting", "northing") [0; 100] [0; 100]
            [("total_field_anomaly", [[Some 1; Some 2]; [Some 3; Some 4]])].

(** ** Worlds for the further properties *)

(** The request that the script sends to the service. *)
Definition service_call : event :=
  EvCalculate "wmm" Inputs.latitude Inputs.longitude Inputs.altitude
              Inputs.date.

(** The world in which the destination of the raster cannot be opened. *)
Definition with_unwritable_destination (e : exn) (X : Externals) : Externals :=
  mkExternals (x_read_csv X) (x_calculate X) (x_spline X) (x_rtp_kernel X)
              (fun _ => Some e).

(** An answer of the service without the total intensity. *)
Definition example_answer_without_intensity : pyval :=
  PyDict
    [("field-value",
      PyDict [("declination", PyDict [("value", PyNum 2.1025)]);
              ("inclination", PyDict [("value", PyNum 65.8927)])])].

Definition example_world_without_intensity : Externals :=
  mkExternals (x_read_csv example_world)
              (fun _ _ _ _ _ => Ok example_answer_without_intensity)
              (x_spline example_world)
              (x_rtp_kernel example_world) (x_raster_open example_world).

(** A CSV file whose field column has another name. *)
Definition example_csv_without_field : DataFrame :=
  [(" X_BD72_m", [Some 0; Some 1]);
   (" Y_BD72_m", [Some 0; Some 2]);
   ("B1Tot", [Some 48930; Some 48940])].

Definition example_world_without_field : Externals :=
  mkExternals (fun _ _ => Ok example_csv_without_field)
              (x_calculate example_world) (x_spline example_world)
              (x_rtp_kernel example_world) (x_raster_open example_world).



(** * Properties *)

(** ** The run monad *)

Lemma rasters_written_app (l1 l2 : list event) :
  rasters_written (l1 ++ l2) = rasters_written l1 ++ rasters_written l2.
Proof.
  induction l1 as [| e l1 IH]; simpl; [reflexivity |].
  destruct e; simpl; rewrite IH; reflexivity.
Qed.

Lemma rasters_written_print (m : message) (l : list event) :
  rasters_written (EvPrint m :: l) = rasters_written l.
Proof. reflexivity. Qed.

Lemma rasters_written_figure (f : string) (l : list event) :
  rasters_written (EvFigure f :: l) = rasters_written l.
Proof. reflexivity. Qed.

Lemma log_pair {A} (l : list event) (r : outcome A) : log (l, r) = l.
Proof. reflexivity. Qed.

Lemma result_pair {A} (l : list event) (r : outcome A) : result (l, r) = r.
Proof. reflexivity. Qed.

Lemma bind_lift_ok {A B} (a : A) (f : A -> M B) : bind (lift (Ok a)) f = f a.
Proof. unfold bind, lift. cbn. destruct (f a). reflexivity. Qed.

Lemma bind_lift_raise {A B} (e : exn) (f : A -> M B) :
  bind (lift (Raise e)) f = ([], Raise e).
Proof. reflexivity. Qed.

Lemma bind_emit {B} (ev : event) (f : unit -> M B) :
  bind (emit ev) f = (ev :: log (f tt), result (f tt)).
Proof. reflexivity. Qed.

Lemma bind_pair_ok {A B} (l : list event) (a : A) (f : A -> M B) :
  bind (l, Ok a) f = (l ++ log (f a), result (f a)).
Proof. reflexivity. Qed.

Lemma bind_pair_raise {A B} (l : list event) (e : exn) (f : A -> M B) :
  bind (l, Raise e) f = (l, Raise e).
Proof. reflexivity. Qed.

Lemma ret_pair {A} (a : A) : ret a = ([], Ok a).
Proof. reflexivity. Qed.

(** ** The loading section *)

(** The loading section, computed: what it logs and how it ends. *)
Lemma load_unfold (X : Externals) :
  load X =
  match x_read_csv X csv_path ";" with
  | Raise e => ([EvReadCsv csv_path ";"], Raise e)
  | Ok df =>
      let call := EvCalculate "wmm" Inputs.latitude Inputs.longitude
                              Inputs.altitude Inputs.date in
      match service_answer X with
      | Raise e => ([EvReadCsv csv_path ";"; call], Raise e)
      | Ok answer =>
          match read_field answer with
          | Raise e => ([EvReadCsv csv_path ";"; call], Raise e)
          | Ok (i, d, t) =>
              ([EvReadCsv csv_path ";"; call; EvPrint (MsgField t i d);
                EvPrint (MsgHead (head df))],
               Ok (mkSite df answer i d t))
          end
      end
  end.
Proof.
  unfold load, read_csv, calculate, service_answer, read_field, csv_path,
    print, emit, lift, ret, bind.
  cbn [fst snd app].
  destruct (x_read_csv X _ _) as [df | e]; cbn [fst snd app]; [| reflexivity].
  destruct (x_calculate X _ _ _ _ _) as [answer | e]; cbn [fst snd app];
    [| reflexivity].
  destruct (getitem answer "field-value") as [fc | e]; cbn [fst snd app];
    [| reflexivity].
  destruct (getitem2 fc "inclination" "value") as [i | e]; cbn [fst snd app];
    [| reflexivity].
  destruct (getitem2 fc "declination" "value") as [d | e]; cbn [fst snd app];
    [| reflexivity].
  destruct (getitem2 fc "total-intensity" "value") as [t | e];
    cbn [fst snd app]; reflexivity.
Qed.

(** ** The NaN branch and the saving section *)

Lemma truth_value_isnull_any (ds : Dataset) :
  truth_value (isnull_any ds) = truth_value (ds_vars ds).
Proof. unfold isnull_any. destruct (ds_vars ds); reflexivity. Qed.

Lemma fill_unfold (ds : Dataset) :
  fill ds =
  if truth_value (ds_vars ds)
  then match getattr ds "total_field_anomaly" with
       | Ok a => ([EvPrint MsgNans],
                  Ok (XDataArray (fillna a (np_nanmedian (ravel (da_values a))))))
       | Raise e => ([EvPrint MsgNans], Raise e)
       end
  else ([], Ok (XDataset ds)).
Proof.
  unfold fill, print, emit, lift, ret, bind, copy.
  rewrite truth_value_isnull_any.
  destruct (truth_value (ds_vars ds)); [| reflexivity].
  cbn [fst snd app].
  destruct (getattr ds _); reflexivity.
Qed.

(** A grid that has the anomaly variable takes the first branch,
    whatever its cells hold. *)
Lemma fill_with_variable (ds : Dataset) (a : ndarray2) :
  find_var "total_field_anomaly" (ds_vars ds) = Some a ->
  fill ds
  = ([EvPrint MsgNans],
     Ok (XDataArray
           (fillna (mkDataArray (ds_dims ds) (ds_coords0 ds) (ds_coords1 ds) a)
                   (np_nanmedian (ravel a))))).
Proof.
  intros H. rewrite fill_unfold. unfold getattr. rewrite H.
  destruct (ds_vars ds); [discriminate | reflexivity].
Qed.

Lemma fill_no_raster (ds : Dataset) : rasters_written (log (fill ds)) = [].
Proof.
  rewrite fill_unfold.
  destruct (truth_value _); [destruct (getattr ds _) |]; reflexivity.
Qed.

Lemma save_unfold (X : Externals) (region : Region) (gr : Dataset) :
  save X region gr =
  match squeeze2 (to_array_values gr) with
  | Raise e => ([], Raise e)
  | Ok squeezed =>
      match x_raster_open X tif_path with
      | Some e => ([], Raise e)
      | None =>
          ([EvRasterWrite tif_path (raster_of region (flipud squeezed)); EvShow],
           Ok (flipud squeezed))
      end
  end.
Proof.
  unfold save, rasterio_write, tif_path, emit, lift, ret, bind.
  cbn [fst snd app].
  destruct (squeeze2 _) as [sq | e]; cbn [fst snd app]; [| reflexivity].
  destruct (x_raster_open X _); reflexivity.
Qed.

(** ** The post-processing section *)

(** A section that ends normally has written exactly one raster, the
    one declared from the region and the final array, and every
    variable holds what its statement computes. *)
Lemma post_process_ok (X : Externals) (df : DataFrame) (i d : pyval)
    (p : Products) :
  result (post_process X df i d) = Ok p ->
  decimate df = Ok (coordinates p, magField p)
  /\ (exists box, get_region (coordinates p) = Ok box
                  /\ region p = pad_region box 50)
  /\ grid_full p
     = grid (x_spline X 500 (1 # 10000000000) (coordinates p) (magField p))
            (region p) 1 ("easting", "northing") "total_field_anomaly"
  /\ masked_grid p = distance_mask (coordinates p) 20 (grid_full p)
  /\ result (fill (grid_full p)) = Ok (filled p)
  /\ reduction_to_pole (x_rtp_kernel X) (filled p) i d = Ok (rtp_grid p)
  /\ gridReduced p
     = distance_mask (coordinates p) 20
                     (to_dataset (rtp_grid p) "total_field_anomaly")
  /\ (exists squeezed, squeeze2 (to_array_values (gridReduced p)) = Ok squeezed
                       /\ reducedMag p = flipud squeezed)
  /\ x_raster_open X tif_path = None
  /\ rasters_written (log (post_process X df i d))
     = [(tif_path, raster_of (region p) (reducedMag p))]
  /\ existsb isnan (magField p) = false.
Proof.
  unfold post_process, print.
  destruct (decimate df) as [[cs mf] | e];
    [rewrite bind_lift_ok | rewrite bind_lift_raise; discriminate].
  cbn [fst snd].
  destruct (column df Inputs.fieldCompute) as [size | e];
    [rewrite bind_lift_ok | rewrite bind_lift_raise; discriminate].
  rewrite !bind_emit, !log_pair, !result_pair.
  unfold spline_fit. destruct (existsb isnan mf) eqn:Enan;
    [rewrite bind_lift_raise; discriminate | rewrite bind_lift_ok].
  destruct (get_region cs) as [box | e] eqn:Ebox;
    [rewrite bind_lift_ok | rewrite bind_lift_raise; discriminate].
  rewrite !bind_emit, !log_pair, !result_pair.
  set (gf := grid _ _ _ _ _).
  pose proof (fill_no_raster gf) as Hnr.
  destruct (fill gf) as [lf [fl | e]] eqn:Efill;
    [rewrite bind_pair_ok | rewrite bind_pair_raise; discriminate].
  rewrite log_pair in Hnr. rewrite !log_pair, !result_pair.
  destruct (reduction_to_pole _ fl i d) as [rtp | e] eqn:Ertp;
    [rewrite bind_lift_ok | rewrite bind_lift_raise; discriminate].
  rewrite !bind_emit, !log_pair, !result_pair, save_unfold.
  destruct (squeeze2 _) as [sq | e] eqn:Esq;
    [| rewrite bind_pair_raise; discriminate].
  destruct (x_raster_open X tif_path) as [e |] eqn:Eopen;
    [rewrite bind_pair_raise; discriminate | rewrite bind_pair_ok].
  rewrite ret_pair, !log_pair, !result_pair.
  intros H. injection H as <-. cbn [coordinates magField region grid_full
    masked_grid filled rtp_grid gridReduced reducedMag].
  repeat match goal with |- _ /\ _ => split end;
    try reflexivity; try assumption.
  - exists box. split; [assumption | reflexivity].
  - fold gf. rewrite Efill. reflexivity.
  - exists sq. split; [assumption | reflexivity].
  - cbn [rasters_written]. rewrite rasters_written_app, Hnr. reflexivity.
Qed.

(** A section that raises has written no raster. *)
Lemma post_process_raise (X : Externals) (df : DataFrame) (i d : pyval)
    (e : exn) :
  result (post_process X df i d) = Raise e ->
  rasters_written (log (post_process X df i d)) = [].
Proof.
  unfold post_process, print.
  destruct (decimate df) as [[cs mf] | e1];
    [rewrite bind_lift_ok | rewrite bind_lift_raise; reflexivity].
  cbn [fst snd].
  destruct (column df Inputs.fieldCompute) as [size | e1];
    [rewrite bind_lift_ok | rewrite bind_lift_raise; reflexivity].
  rewrite !bind_emit, !log_pair, !result_pair.
  unfold spline_fit. destruct (existsb isnan mf);
    [rewrite bind_lift_raise; reflexivity | rewrite bind_lift_ok].
  destruct (get_region cs) as [box | e1];
    [rewrite bind_lift_ok | rewrite bind_lift_raise; reflexivity].
  rewrite !bind_emit, !log_pair, !result_pair.
  set (gf := grid _ _ _ _ _).
  pose proof (fill_no_raster gf) as Hnr.
  rewrite ?rasters_written_print, ?rasters_written_figure.
  destruct (fill gf) as [lf [fl | e1]];
    [rewrite bind_pair_ok | rewrite bind_pair_raise; intros _; exact Hnr].
  rewrite log_pair in Hnr. rewrite !log_pair, !result_pair.
  rewrite rasters_written_app, Hnr. cbn [app].
  destruct (reduction_to_pole _ fl i d) as [rtp | e1];
    [rewrite bind_lift_ok | rewrite bind_lift_raise; reflexivity].
  rewrite !bind_emit, !log_pair, !result_pair, save_unfold.
  rewrite ?rasters_written_print, ?rasters_written_figure.
  destruct (squeeze2 _) as [sq | e1];
    [| rewrite bind_pair_raise; reflexivity].
  destruct (x_raster_open X tif_path) as [e1 |];
    [rewrite bind_pair_raise; reflexivity | rewrite bind_pair_ok].
  rewrite ret_pair, !result_pair. discriminate.
Qed.

(** ** The whole script *)

Lemma load_no_raster (X : Externals) : rasters_written (log (load X)) = [].
Proof.
  rewrite load_unfold.
  destruct (x_read_csv X _ _); [| reflexivity].
  cbv zeta. destruct (service_answer X) as [ans | e]; [| reflexivity].
  destruct (read_field ans) as [[[i d] t] | e]; reflexivity.
Qed.

Lemma load_ok (X : Externals) (s : Site) :
  result (load X) = Ok s ->
  x_read_csv X csv_path ";" = Ok (data s)
  /\ service_answer X = Ok (results s)
  /\ read_field (results s)
     = Ok (inclinationSite s, declinationSite s, totalIntensity s).
Proof.
  rewrite load_unfold.
  destruct (x_read_csv X _ _) as [df | e]; [| discriminate].
  cbv zeta. destruct (service_answer X) as [ans | e]; [| discriminate].
  destruct (read_field ans) as [[[i d] t] | e] eqn:E; [| discriminate].
  unfold result. cbn [snd]. intros H. injection H as <-.
  cbn [data results inclinationSite declinationSite totalIntensity]. auto.
Qed.

Lemma script_unfold (X : Externals) :
  script X =
  match result (load X) with
  | Raise e => (log (load X), Raise e)
  | Ok s =>
      let pp := post_process X (data s) (inclinationSite s) (declinationSite s) in
      match result pp with
      | Raise e => (log (load X) ++ log pp, Raise e)
      | Ok p => (log (load X) ++ log pp, Ok (s, p))
      end
  end.
Proof.
  unfold script, bind, ret, result, log.
  destruct (snd (load X)) as [s | e]; [| reflexivity].
  cbv zeta. destruct (snd (post_process X _ _ _)); cbn [fst snd];
    rewrite ?app_nil_r; reflexivity.
Qed.

(** A run that ends normally has settled every variable and has
    written exactly one raster. *)
Lemma script_ok (X : Externals) (s : Site) (p : Products) :
  result (script X) = Ok (s, p) ->
  completed X s p
  /\ rasters_written (log (script X))
     = [(tif_path, raster_of (region p) (reducedMag p))].
Proof.
  rewrite script_unfold.
  destruct (result (load X)) as [s' | e] eqn:El;
    [| rewrite result_pair; discriminate].
  cbv zeta.
  destruct (result (post_process X _ _ _)) as [p' | e] eqn:Ep;
    rewrite result_pair, log_pair; [| discriminate].
  intros H. injection H as <- <-.
  apply load_ok in El. destruct El as (H1 & H2 & H3).
  apply post_process_ok in Ep.
  destruct Ep as (P1 & P2 & P3 & P4 & P5 & P6 & P7 & P8 & P9 & P10 & P11).
  split.
  - unfold completed. repeat match goal with |- _ /\ _ => split end; assumption.
  - rewrite rasters_written_app, load_no_raster, P10. reflexivity.
Qed.

(** A run that raises has written no raster. *)
Lemma script_raise (X : Externals) (e : exn) :
  result (script X) = Raise e -> rasters_written (log (script X)) = [].
Proof.
  rewrite script_unfold.
  destruct (result (load X)) as [s | e1] eqn:El.
  - cbv zeta.
    destruct (result (post_process X _ _ _)) as [p | e1] eqn:Ep;
      rewrite result_pair, log_pair; [discriminate |].
    intros _. rewrite rasters_written_app, load_no_raster.
    apply (post_process_raise _ _ _ _ _ Ep).
  - intros _. rewrite log_pair. apply load_no_raster.
Qed.

(** ** Median *)

Lemma sort_perm (l : list Q) : Permutation l (sort l).
Proof. apply QSort.Permuted_sort. Qed.

Lemma sort_length (l : list Q) : length (sort l) = length l.
Proof. symmetry. apply Permutation_length, sort_perm. Qed.

Lemma sort_sorted (l : list Q) : Sorted Qle (sort l).
Proof.
  pose proof (QSort.Sorted_sort l) as H. unfold sort.
  induction H as [| a s Hs IH Hd]; constructor; [exact IH |].
  destruct Hd as [| b s' Hab]; constructor.
  apply Qle_bool_iff. exact Hab.
Qed.

Lemma sort_strongly_sorted (l : list Q) : StronglySorted Qle (sort l).
Proof.
  apply Sorted_StronglySorted; [| apply sort_sorted].
  intros x y z. apply Qle_trans.
Qed.

Lemma even_odd_length (n : nat) :
  (exists k, n = (2 * k + 1)%nat /\ Nat.even n = false /\ (n / 2 = k)%nat)
  \/ (exists k, n = (2 * k + 2)%nat /\ Nat.even n = true
                /\ (n / 2 = S k)%nat)
  \/ n = 0%nat.
Proof.
  destruct n as [| n]; [right; right; reflexivity |].
  destruct (Nat.even (S n)) eqn:E.
  - right. left. apply Nat.even_spec in E. destruct E as [m Hm].
    destruct m as [| m]; [lia |]. exists m.
    split; [lia |]. split; [reflexivity |].
    rewrite Hm, Nat.mul_comm. apply Nat.div_mul. discriminate.
  - left. assert (O : Nat.odd (S n) = true)
      by (unfold Nat.odd; rewrite E; reflexivity).
    apply Nat.odd_spec in O. destruct O as [m Hm]. exists m.
    split; [lia |]. split; [reflexivity |].
    rewrite Hm, Nat.add_comm, Nat.mul_comm, Nat.div_add by discriminate.
    reflexivity.
Qed.

(** The median of a non-empty list is a median of it: the middle value
    of the sorted list, or the mean of its two middle values. *)
Lemma median_is_median (vs : list Q) :
  vs <> [] -> is_median vs (median vs).
Proof.
  intros Hne. exists (sort vs).
  split; [apply sort_perm |]. split; [apply sort_sorted |].
  unfold median.
  destruct (even_odd_length (length (sort vs)))
    as [(k & Hk & Ev & Hd) | [(k & Hk & Ev & Hd) | H0]].
  - left. exists k. rewrite Ev, Hd. split; [exact Hk | apply Qred_correct].
  - right. exists k. rewrite Ev, Hd. split; [exact Hk |].
    cbn [Nat.sub]. rewrite Nat.sub_0_r. apply Qred_correct.
  - exfalso. rewrite sort_length in H0.
    destruct vs; [contradiction | discriminate].
Qed.

(** *** The median does not depend on the order of the values *)

Lemma filter_length_perm {A} (f : A -> bool) (l l' : list A) :
  Permutation l l' -> length (filter f l) = length (filter f l').
Proof.
  induction 1 as [| x l l' _ IH | x y l | l l' l'' _ IH1 _ IH2]; cbn.
  - reflexivity.
  - destruct (f x); cbn; rewrite IH; reflexivity.
  - destruct (f x), (f y); reflexivity.
  - rewrite IH1. exact IH2.
Qed.

Lemma filter_length_mono {A} (f g : A -> bool) (l : list A) :
  (forall x, f x = true -> g x = true) ->
  (length (filter f l) <= length (filter g l))%nat.
Proof.
  intros H. induction l as [| x l IH]; cbn; [lia |].
  destruct (f x) eqn:F.
  - rewrite (H x F). cbn. lia.
  - destruct (g x); cbn; lia.
Qed.

Lemma filter_none {A} (f : A -> bool) (l : list A) :
  (forall x, In x l -> f x = false) -> filter f l = [].
Proof.
  induction l as [| a l IH]; intros H; [reflexivity |]. cbn.
  rewrite (H a (or_introl eq_refl)). apply IH.
  intros x Hx. apply H. right. exact Hx.
Qed.

(** In a sorted list fewer than [k + 1] values are below the one of
    rank [k], and more than [k] are at most it. *)
Lemma sorted_rank (s : list Q) (k : nat) :
  StronglySorted Qle s -> (k < length s)%nat ->
  (length (filter (fun x => negb (Qle_bool (nth k s 0%Q) x)) s) <= k)%nat
  /\ (k < length (filter (fun x => Qle_bool x (nth k s 0%Q)) s))%nat.
Proof.
  intros Hs. revert k. induction Hs as [| a t Ht IH Ha]; intros k Hk.
  - cbn in Hk. lia.
  - destruct k as [| k]; cbn [nth filter].
    + assert (Haa : Qle_bool a a = true) by (apply Qle_bool_iff, Qle_refl).
      rewrite Haa. cbn [negb length]. split; [| lia].
      assert (E : filter (fun x => negb (Qle_bool a x)) t = []).
      { apply filter_none. intros x Hx.
        rewrite Forall_forall in Ha.
        rewrite (proj2 (Qle_bool_iff a x) (Ha x Hx)). reflexivity. }
      rewrite E. cbn. lia.
    + cbn [length] in Hk. apply Nat.succ_lt_mono in Hk.
      destruct (IH k Hk) as [H1 H2].
      assert (Hin : In (nth k t 0) t) by (apply nth_In, Hk).
      rewrite Forall_forall in Ha.
      rewrite (proj2 (Qle_bool_iff a (nth k t 0)) (Ha _ Hin)).
      cbn [length]. split; [| lia].
      destruct (negb (Qle_bool (nth k t 0) a)); cbn [length]; lia.
Qed.

(** Two sorted lists with the same values have equal values at every
    rank. *)
Lemma sorted_perm_nth (s1 s2 : list Q) (k : nat) :
  StronglySorted Qle s1 -> StronglySorted Qle s2 -> Permutation s1 s2 ->
  (k < length s1)%nat ->
  nth k s1 0 == nth k s2 0.
Proof.
  intros H1 H2 Hp Hk.
  assert (Hk2 : (k < length s2)%nat)
    by (rewrite <- (Permutation_length Hp); exact Hk).
  assert (Hlt : forall (a b : list Q),
            StronglySorted Qle a -> StronglySorted Qle b -> Permutation a b ->
            (k < length a)%nat -> (k < length b)%nat ->
            ~ nth k a 0 < nth k b 0).
  { intros a b Ha Hb Hab Hka Hkb Hlt.
    destruct (sorted_rank a k Ha Hka) as [_ A2].
    destruct (sorted_rank b k Hb Hkb) as [B1 _].
    rewrite (filter_length_perm _ _ _ Hab) in A2.
    pose proof (filter_length_mono
                  (fun x => Qle_bool x (nth k a 0))
                  (fun x => negb (Qle_bool (nth k b 0) x)) b) as Hm.
    assert (Himp : forall x, Qle_bool x (nth k a 0) = true ->
                     negb (Qle_bool (nth k b 0) x) = true).
    { intros x Hx. apply Qle_bool_iff in Hx.
      destruct (Qle_bool (nth k b 0) x) eqn:E; [| reflexivity].
      apply Qle_bool_iff in E. exfalso.
      apply (Qlt_not_le _ _ Hlt). apply (Qle_trans _ x); assumption. }
    specialize (Hm Himp). lia. }
  destruct (Q_dec (nth k s1 0) (nth k s2 0)) as [[Hl | Hg] | He].
  - exfalso. apply (Hlt s1 s2 H1 H2 Hp Hk Hk2 Hl).
  - exfalso. apply (Hlt s2 s1 H2 H1 (Permutation_sym Hp) Hk2 Hk Hg).
  - exact He.
Qed.

Lemma median_perm (l1 l2 : list Q) :
  Permutation l1 l2 -> median l1 = median l2.
Proof.
  intros Hp.
  assert (Hs : Permutation (sort l1) (sort l2)).
  { eapply Permutation_trans; [apply Permutation_sym, sort_perm |].
    eapply Permutation_trans; [exact Hp | apply sort_perm]. }
  pose proof (sort_strongly_sorted l1) as S1.
  pose proof (sort_strongly_sorted l2) as S2.
  unfold median. rewrite <- (Permutation_length Hs).
  apply Qred_complete.
  destruct (even_odd_length (length (sort l1)))
    as [(k & Hk & Ev & Hd) | [(k & Hk & Ev & Hd) | H0]].
  - rewrite Ev, Hd. apply sorted_perm_nth; try assumption. lia.
  - rewrite Ev, Hd. cbn [Nat.sub]. rewrite Nat.sub_0_r.
    rewrite (sorted_perm_nth _ _ k S1 S2 Hs) by lia.
    rewrite (sorted_perm_nth _ _ (S k) S1 S2 Hs) by lia.
    reflexivity.
  - rewrite H0. cbn.
    destruct (sort l1) as [| a t] eqn:E1; [| discriminate].
    apply Permutation_nil in Hs. rewrite Hs. reflexivity.
Qed.

Lemma all_finite_of_no_nan (l : list cell) :
  Forall (fun c => isnan c = false) l ->
  exists vs, all_finite l = Some vs /\ map Some vs = l.
Proof.
  induction 1 as [| c l Hc _ (vs & E1 & E2)]; [exists []; auto |].
  destruct c as [v |]; [| discriminate].
  exists (v :: vs). cbn [all_finite map]. rewrite E1, E2. auto.
Qed.

Lemma all_finite_perm (l1 l2 : list cell) :
  Permutation l1 l2 ->
  (all_finite l1 = None /\ all_finite l2 = None)
  \/ exists v1 v2, all_finite l1 = Some v1 /\ all_finite l2 = Some v2
                   /\ Permutation v1 v2.
Proof.
  induction 1 as [| x l l' _ IH | x y l | l l' l'' _ IH1 _ IH2].
  - right. exists [], []. auto.
  - cbn [all_finite]. destruct x as [v |]; [| left; auto].
    destruct IH as [[-> ->] | (v1 & v2 & -> & -> & Hp)]; [left; auto |].
    right. exists (v :: v1), (v :: v2). auto.
  - cbn [all_finite]. destruct x as [v |], y as [w |]; try (left; auto; fail).
    destruct (all_finite l) as [vs |]; [| left; auto].
    right. exists (w :: v :: vs), (v :: w :: vs).
    split; [reflexivity |]. split; [reflexivity | apply perm_swap].
  - destruct IH1 as [[A B] | (v1 & v2 & A & B & Hp)];
      destruct IH2 as [[C D] | (w1 & w2 & C & D & Hq)];
      try congruence.
    + left. auto.
    + rewrite B in C. injection C as <-.
      right. exists v1, w2. split; [exact A |]. split; [exact D |].
      eapply Permutation_trans; eassumption.
Qed.

Lemma np_median_perm (l1 l2 : list cell) :
  Permutation l1 l2 -> np_median l1 = np_median l2.
Proof.
  intros Hp. unfold np_median.
  destruct (all_finite_perm _ _ Hp) as [[-> ->] | (v1 & v2 & -> & -> & Hv)];
    [reflexivity |].
  destruct v1 as [| a v1].
  - apply Permutation_nil in Hv. rewrite Hv. reflexivity.
  - destruct v2 as [| b v2];
      [apply Permutation_sym, Permutation_nil in Hv; discriminate |].
    rewrite (median_perm _ _ Hv). reflexivity.
Qed.
(** ** The bounding box *)

Lemma Qminimum_spec (l : list Q) (x : Q) :
  Qminimum x l <= x /\ forall v, In v l -> Qminimum x l <= v.
Proof.
  unfold Qminimum. revert x.
  induction l as [| a l IH]; intros x; cbn [fold_left].
  - split; [apply Qle_refl | contradiction].
  - destruct (Qle_bool a x) eqn:E.
    + apply Qle_bool_iff in E. destruct (IH a) as [H1 H2]. split.
      * apply (Qle_trans _ a); assumption.
      * intros v [<- | Hv]; [exact H1 | apply H2, Hv].
    + assert (Hxa : x <= a).
      { destruct (Qlt_le_dec x a) as [H | H]; [apply Qlt_le_weak, H |].
        apply Qle_bool_iff in H. congruence. }
      destruct (IH x) as [H1 H2]. split; [exact H1 |].
      intros v [<- | Hv]; [apply (Qle_trans _ x); assumption | apply H2, Hv].
Qed.

Lemma Qmaximum_spec (l : list Q) (x : Q) :
  x <= Qmaximum x l /\ forall v, In v l -> v <= Qmaximum x l.
Proof.
  unfold Qmaximum. revert x.
  induction l as [| a l IH]; intros x; cbn [fold_left].
  - split; [apply Qle_refl | contradiction].
  - destruct (Qle_bool x a) eqn:E.
    + apply Qle_bool_iff in E. destruct (IH a) as [H1 H2]. split.
      * apply (Qle_trans _ a); assumption.
      * intros v [<- | Hv]; [exact H1 | apply H2, Hv].
    + assert (Hax : a <= x).
      { destruct (Qlt_le_dec a x) as [H | H]; [apply Qlt_le_weak, H |].
        apply Qle_bool_iff in H. congruence. }
      destruct (IH x) as [H1 H2]. split; [exact H1 |].
      intros v [<- | Hv]; [apply (Qle_trans _ x); assumption | apply H2, Hv].
Qed.

(** The bounding box holds every point. *)
Lemma get_region_bounds (pts : list (Q * Q)) (box : Region) :
  get_region pts = Ok box ->
  forall e n, In (e, n) pts ->
    r_west box <= e /\ e <= r_east box
    /\ r_south box <= n /\ n <= r_north box.
Proof.
  destruct pts as [| [e0 n0] t]; [discriminate |].
  cbn [get_region]. intros H. injection H as <-.
  cbn [r_west r_east r_south r_north].
  destruct (Qminimum_spec (map fst t) e0) as [W1 W2].
  destruct (Qmaximum_spec (map fst t) e0) as [E1 E2].
  destruct (Qminimum_spec (map snd t) n0) as [S1 S2].
  destruct (Qmaximum_spec (map snd t) n0) as [N1 N2].
  intros e n [Heq | Hin].
  - injection Heq as <- <-. auto.
  - pose proof (in_map fst _ _ Hin) as He.
    pose proof (in_map snd _ _ Hin) as Hn. cbn [fst snd] in He, Hn.
    auto.
Qed.

Lemma get_region_ordered (pts : list (Q * Q)) (box : Region) :
  get_region pts = Ok box ->
  r_west box <= r_east box /\ r_south box <= r_north box.
Proof.
  intros H. destruct pts as [| [e0 n0] t] eqn:E; [discriminate |].
  rewrite <- E in H.
  destruct (get_region_bounds pts box H e0 n0) as (A & B & C & D).
  - rewrite E. left. reflexivity.
  - split; eapply Qle_trans; eassumption.
Qed.

Lemma round_half_even_ge_floor (q : Q) : (Qfloor q <= round_half_even q)%Z.
Proof.
  unfold round_half_even.
  destruct (Qcompare _ _); [destruct (Z.even _) | |]; lia.
Qed.

Lemma Qminimum_In (l : list Q) (x : Q) : In (Qminimum x l) (x :: l).
Proof.
  unfold Qminimum. revert x.
  induction l as [| a l IH]; intros x; cbn [fold_left]; [left; reflexivity |].
  destruct (Qle_bool a x).
  - destruct (IH a) as [H | H]; [right; left; exact H | right; right; exact H].
  - destruct (IH x) as [H | H]; [left; exact H | right; right; exact H].
Qed.

Lemma Qmaximum_In (l : list Q) (x : Q) : In (Qmaximum x l) (x :: l).
Proof.
  unfold Qmaximum. revert x.
  induction l as [| a l IH]; intros x; cbn [fold_left]; [left; reflexivity |].
  destruct (Qle_bool x a).
  - destruct (IH a) as [H | H]; [right; left; exact H | right; right; exact H].
  - destruct (IH x) as [H | H]; [left; exact H | right; right; exact H].
Qed.

(** Each side of the bounding box passes through a point. *)
Lemma get_region_attained (pts : list (Q * Q)) (box : Region) :
  get_region pts = Ok box ->
  In (r_west box) (map fst pts) /\ In (r_east box) (map fst pts)
  /\ In (r_south box) (map snd pts) /\ In (r_north box) (map snd pts).
Proof.
  destruct pts as [| [e0 n0] t]; [discriminate |].
  cbn [get_region]. intros H. injection H as <-.
  cbn [r_west r_east r_south r_north map fst snd].
  repeat split; first [apply Qminimum_In | apply Qmaximum_In].
Qed.

(** The bounding box does not depend on the order of the points. *)
Lemma get_region_perm (pts1 pts2 : list (Q * Q)) (box1 box2 : Region) :
  Permutation pts1 pts2 ->
  get_region pts1 = Ok box1 -> get_region pts2 = Ok box2 ->
  r_west box1 == r_west box2 /\ r_east box1 == r_east box2
  /\ r_south box1 == r_south box2 /\ r_north box1 == r_north box2.
Proof.
  intros Hp H1 H2.
  assert (Hb : forall a b boxa boxb,
            Permutation a b -> get_region a = Ok boxa ->
            get_region b = Ok boxb ->
            r_west boxa <= r_west boxb /\ r_east boxb <= r_east boxa
            /\ r_south boxa <= r_south boxb /\ r_north boxb <= r_north boxa).
  { intros a b boxa boxb Hab Ha Hb.
    destruct (get_region_attained _ _ Hb) as (W & E & S & N).
    apply in_map_iff in W, E, S, N.
    destruct W as ([we wn] & Hw & Win), E as ([ee en] & He & Ein),
             S as ([se sn] & Hs & Sin), N as ([ne nn] & Hn & Nin).
    cbn [fst snd] in Hw, He, Hs, Hn. subst we ee sn nn.
    apply (Permutation_in _ (Permutation_sym Hab)) in Win, Ein, Sin, Nin.
    destruct (get_region_bounds _ _ Ha _ _ Win) as (A1 & _).
    destruct (get_region_bounds _ _ Ha _ _ Ein) as (_ & A2 & _).
    destruct (get_region_bounds _ _ Ha _ _ Sin) as (_ & _ & A3 & _).
    destruct (get_region_bounds _ _ Ha _ _ Nin) as (_ & _ & _ & A4).
    auto. }
  destruct (Hb _ _ _ _ Hp H1 H2) as (A1 & A2 & A3 & A4).
  destruct (Hb _ _ _ _ (Permutation_sym Hp) H2 H1) as (B1 & B2 & B3 & B4).
  repeat split; apply Qle_antisym; assumption.
Qed.

Lemma get_region_perm_raise (pts1 pts2 : list (Q * Q)) (e : exn) :
  Permutation pts1 pts2 ->
  get_region pts1 = Raise e -> get_region pts2 = Raise e.
Proof.
  intros Hp H. destruct pts1 as [| [e0 n0] t]; [| discriminate].
  apply Permutation_nil in Hp. subst pts2. exact H.
Qed.

Lemma round_half_even_comp (q q' : Q) :
  q == q' -> round_half_even q = round_half_even q'.
Proof.
  intros H. unfold round_half_even.
  rewrite (Qfloor_comp _ _ H).
  assert (E : q - inject_Z (Qfloor q') == q' - inject_Z (Qfloor q'))
    by (rewrite H; reflexivity).
  rewrite (Qcompare_comp _ _ E _ _ (Qeq_refl (1 # 2))). reflexivity.
Qed.

(** Rounding gives one or more only from one half on. *)
Lemma round_half_even_pos (q : Q) :
  (1 <= round_half_even q)%Z -> (1 # 2) <= q.
Proof.
  unfold round_half_even. intros H.
  pose proof (Qfloor_le q) as Hlo.
  destruct (Z_le_gt_dec 1 (Qfloor q)) as [Hf | Hf].
  - assert (Hq : inject_Z 1 <= inject_Z (Qfloor q))
      by (rewrite <- Zle_Qle; exact Hf).
    change (inject_Z 1) with 1 in Hq. lra.
  - destruct (Qcompare_spec (q - inject_Z (Qfloor q)) (1 # 2)) as [E | L | G].
    + destruct (Z.even (Qfloor q)) eqn:Ev; [lia |].
      assert (Hf0 : Qfloor q = 0%Z) by lia.
      rewrite Hf0 in E. change (inject_Z 0) with 0 in E. lra.
    + lia.
    + assert (Hf0 : Qfloor q = 0%Z) by lia.
      rewrite Hf0 in G. change (inject_Z 0) with 0 in G. lra.
Qed.

Lemma round_half_even_above_half (q : Q) :
  (1 # 2) < q -> (1 <= round_half_even q)%Z.
Proof.
  intros H. pose proof (round_half_even_ge_floor q) as Hge.
  destruct (Z_le_gt_dec 1 (Qfloor q)) as [Hf | Hf]; [lia |].
  assert (H0 : (0 <= Qfloor q)%Z).
  { assert (Hq : inject_Z 0 <= q) by (change (inject_Z 0) with 0; lra).
    apply Qfloor_resp_le in Hq. rewrite Qfloor_Z in Hq. exact Hq. }
  assert (Hf0 : Qfloor q = 0%Z) by lia.
  unfold round_half_even. rewrite Hf0. change (inject_Z 0) with 0.
  destruct (Qcompare_spec (q - 0) (1 # 2)) as [E | L | G]; [lra | lra | lia].
Qed.

(** ** The node lines of the grid *)

Lemma linspace_length (start stop : Q) (num : nat) :
  length (linspace start stop num) = num.
Proof.
  destruct num as [| [| k]]; [reflexivity | reflexivity |].
  unfold linspace. rewrite length_map, length_seq. reflexivity.
Qed.

(** Over a span of at least 100, at spacing 1, there are at least 101
    node lines. *)
Lemma grid_lines_at_least_101 (start stop : Q) :
  100 <= stop - start ->
  (101 <= length (grid_lines start stop 1))%nat.
Proof.
  intros H. unfold grid_lines. rewrite linspace_length.
  assert (Hq : inject_Z 100 <= (stop - start) / 1).
  { assert (E : (stop - start) / 1 == stop - start) by (field; discriminate).
    rewrite E. exact H. }
  apply Qfloor_resp_le in Hq. rewrite Qfloor_Z in Hq.
  pose proof (round_half_even_ge_floor ((stop - start) / 1)) as Hr.
  lia.
Qed.

(** ** Block reduction *)

(** A point of the axis lies in the block of its index. *)
Lemma block_index_spec (start stop : Q) (n : Z) (x : Q) :
  start < stop -> (1 <= n)%Z -> start <= x -> x <= stop ->
  (0 <= block_index start stop n x < n)%Z
  /\ start + inject_Z (block_index start stop n x) * block_side start stop n
     <= x
  /\ x <= start
          + inject_Z (block_index start stop n x + 1) * block_side start stop n.
Proof.
  intros Hlt Hn Hlo Hhi. unfold block_index.
  set (side := block_side start stop n).
  assert (Hn0 : 0 < inject_Z n)
    by (change 0 with (inject_Z 0); rewrite <- Zlt_Qlt; lia).
  assert (Eside : inject_Z n * side == stop - start).
  { unfold side, block_side. field. intros H0. rewrite H0 in Hn0. discriminate. }
  assert (Hside : 0 < side).
  { unfold side, block_side. apply Qlt_shift_div_l; [exact Hn0 | lra]. }
  set (t := (x - start) / side).
  assert (Et : t * side == x - start).
  { unfold t. field. intros H0. rewrite H0 in Hside. discriminate. }
  assert (Ht0 : 0 <= t)
    by (unfold t; apply Qle_shift_div_l; [exact Hside | lra]).
  assert (Htn : t <= inject_Z n)
    by (unfold t; apply Qle_shift_div_r; [exact Hside | lra]).
  assert (Hf0 : (0 <= Qfloor t)%Z).
  { change 0 with (inject_Z 0) in Ht0.
    apply Qfloor_resp_le in Ht0. rewrite Qfloor_Z in Ht0. exact Ht0. }
  assert (Hfn : (Qfloor t <= n)%Z).
  { apply Qfloor_resp_le in Htn. rewrite Qfloor_Z in Htn. exact Htn. }
  pose proof (Qfloor_le t) as Flo. pose proof (Qlt_floor t) as Fhi.
  rewrite inject_Z_plus in Fhi. change (inject_Z 1) with 1 in Fhi.
  split; [lia |].
  destruct (Z.min_spec (n - 1) (Qfloor t)) as [[Hc ->] | [Hc ->]].
  - (* the far end: the floor is n *)
    assert (Hfl : Qfloor t = n) by lia.
    assert (Hge : inject_Z n <= t) by (rewrite <- Hfl; exact Flo).
    assert (E1 : inject_Z (n - 1) == inject_Z n - 1)
      by (unfold Zminus; rewrite inject_Z_plus; reflexivity).
    assert (E2 : inject_Z (n - 1 + 1) == inject_Z n)
      by (replace (n - 1 + 1)%Z with n by lia; reflexivity).
    rewrite E1, E2.
    assert (H1 : inject_Z n * side <= t * side)
      by (apply Qmult_le_compat_r; [exact Hge | lra]).
    split; lra.
  - rewrite inject_Z_plus. change (inject_Z 1) with 1.
    assert (H1 : inject_Z (Qfloor t) * side <= t * side)
      by (apply Qmult_le_compat_r; [exact Flo | lra]).
    assert (H2 : t * side <= (inject_Z (Qfloor t) + 1) * side)
      by (apply Qmult_le_compat_r; lra).
    split; lra.
Qed.

Lemma block_side_fills (start stop : Q) (n : Z) :
  (1 <= n)%Z -> inject_Z n * block_side start stop n == stop - start.
Proof.
  intros Hn. unfold block_side. field. intros H0.
  assert (Hn0 : 0 < inject_Z n)
    by (change 0 with (inject_Z 0); rewrite <- Zlt_Qlt; lia).
  rewrite H0 in Hn0. discriminate.
Qed.

(** One block or more along an axis means that the axis has a length. *)
Lemma block_count_pos (start stop spacing : Q) :
  0 < spacing -> (1 <= block_count start stop spacing)%Z -> start < stop.
Proof.
  intros Hs H. apply round_half_even_pos in H.
  assert (E : (stop - start) / spacing * spacing == stop - start).
  { field. intros H0. rewrite H0 in Hs. discriminate. }
  assert (Hm : (1 # 2) * spacing <= (stop - start) / spacing * spacing)
    by (apply Qmult_le_compat_r; [exact H | lra]).
  lra.
Qed.

Lemma block_index_comp (start start' stop stop' : Q) (n : Z) (x : Q) :
  start == start' -> stop == stop' ->
  block_index start stop n x = block_index start' stop' n x.
Proof.
  intros Hs He. unfold block_index, block_side.
  assert (E : (x - start) / ((stop - start) / inject_Z n)
              == (x - start') / ((stop' - start') / inject_Z n))
    by (rewrite Hs, He; reflexivity).
  rewrite (Qfloor_comp _ _ E). reflexivity.
Qed.

(** *** The occupied blocks *)

Lemma range_sorted (start len : nat) :
  StronglySorted Z.lt (map Z.of_nat (seq start len)).
Proof.
  revert start. induction len as [| len IH]; intros start; cbn; constructor.
  - apply IH.
  - apply Forall_forall. intros z Hz. apply in_map_iff in Hz.
    destruct Hz as (k & <- & Hk). apply in_seq in Hk. lia.
Qed.

Lemma filter_sorted {A} (R : A -> A -> Prop) (f : A -> bool) (l : list A) :
  StronglySorted R l -> StronglySorted R (filter f l).
Proof.
  induction 1 as [| a l Hl IH Ha]; cbn; [constructor |].
  destruct (f a); [| exact IH].
  constructor; [exact IH |].
  apply Forall_forall. intros x Hx. apply filter_In in Hx.
  rewrite Forall_forall in Ha. apply Ha, Hx.
Qed.

Lemma occupied_sorted (nblocks : Z) (ls : list Z) :
  StronglySorted Z.lt (occupied nblocks ls).
Proof. unfold occupied. apply filter_sorted, range_sorted. Qed.

Lemma occupied_In (nblocks : Z) (ls : list Z) (b : Z) :
  In b (occupied nblocks ls) <-> (0 <= b < nblocks)%Z /\ In b ls.
Proof.
  unfold occupied. rewrite filter_In, in_map_iff, existsb_exists. split.
  - intros [(k & <- & Hk) (x & Hx & Ex)]. apply in_seq in Hk.
    apply Z.eqb_eq in Ex. subst x. split; [lia | exact Hx].
  - intros [Hb Hin]. split.
    + exists (Z.to_nat b). split; [lia | apply in_seq; lia].
    + exists b. split; [exact Hin | apply Z.eqb_refl].
Qed.

Lemma sorted_lt_NoDup (l : list Z) : StronglySorted Z.lt l -> NoDup l.
Proof.
  induction 1 as [| a l Hl IH Ha]; constructor; [| exact IH].
  intros Hin. rewrite Forall_forall in Ha. specialize (Ha a Hin). lia.
Qed.

Lemma occupied_length (nblocks : Z) (ls : list Z) :
  (length (occupied nblocks ls) <= length ls)%nat.
Proof.
  apply NoDup_incl_length.
  - apply sorted_lt_NoDup, occupied_sorted.
  - intros b Hb. apply occupied_In in Hb. apply Hb.
Qed.

Lemma members_In (box : Region) (ncols nrows b : Z) (samples : list sample)
    (s : sample) :
  In s (members box ncols nrows b samples)
  <-> In s samples /\ block_of box ncols nrows (fst s) = b.
Proof.
  unfold members. rewrite filter_In, Z.eqb_eq. reflexivity.
Qed.

(** *** What the reduction returns *)

Lemma BlockReduce_filter_ok (spacing : Q) (coords : list (Q * Q))
    (values : list cell) (out : list (Q * Q) * list cell) :
  BlockReduce_filter spacing coords values = Ok out ->
  exists box,
    get_region coords = Ok box
    /\ (1 <= block_count (r_west box) (r_east box) spacing)%Z
    /\ (1 <= block_count (r_south box) (r_north box) spacing)%Z
    /\ out
       = (let ncols := block_count (r_west box) (r_east box) spacing in
          let nrows := block_count (r_south box) (r_north box) spacing in
          let samples := combine coords values in
          let rows := map (reduce_block box ncols nrows samples)
                          (occupied (nrows * ncols)
                                    (labels box ncols nrows samples)) in
          (map fst rows, map snd rows)).
Proof.
  unfold BlockReduce_filter.
  destruct (get_region coords) as [box | e]; [| discriminate].
  cbv zeta.
  destruct (Z.leb_spec (block_count (r_west box) (r_east box) spacing) 0)
    as [Hc | Hc]; [discriminate |].
  destruct (Z.leb_spec (block_count (r_south box) (r_north box) spacing) 0)
    as [Hr | Hr]; [discriminate |].
  cbn [orb]. intros Hout. injection Hout as <-.
  exists box. repeat split; try lia.
Qed.

Lemma all_finite_map_Some (vs : list Q) : all_finite (map Some vs) = Some vs.
Proof.
  induction vs as [| v vs IH]; [reflexivity |]. cbn. rewrite IH. reflexivity.
Qed.

(** The value of a block with finite values is a median of them. *)
Lemma np_median_is_median (l : list cell) (vs : list Q) :
  map Some vs = l -> l <> [] ->
  exists m, np_median l = Some m /\ is_median vs m.
Proof.
  intros <- Hne. unfold np_median. rewrite all_finite_map_Some.
  destruct vs as [| v vs]; [contradiction |].
  exists (median (v :: vs)). split; [reflexivity |].
  apply median_is_median. discriminate.
Qed.

(** Every point of the data has its block among the blocks of the box. *)
Lemma block_of_in_range (spacing : Q) (coords : list (Q * Q)) (box : Region)
    (p : Q * Q) :
  0 < spacing ->
  get_region coords = Ok box ->
  (1 <= block_count (r_west box) (r_east box) spacing)%Z ->
  (1 <= block_count (r_south box) (r_north box) spacing)%Z ->
  In p coords ->
  (0 <= block_of box (block_count (r_west box) (r_east box) spacing)
                 (block_count (r_south box) (r_north box) spacing) p
   < block_count (r_south box) (r_north box) spacing
     * block_count (r_west box) (r_east box) spacing)%Z.
Proof.
  intros Hs Hbox Hc Hr Hin. destruct p as [e n].
  destruct (get_region_bounds _ _ Hbox e n Hin) as (A & B & C & D).
  pose proof (block_count_pos _ _ _ Hs Hc) as Hwe.
  pose proof (block_count_pos _ _ _ Hs Hr) as Hsn.
  destruct (block_index_spec _ _ _ e Hwe Hc A B) as [Ic _].
  destruct (block_index_spec _ _ _ n Hsn Hr C D) as [Ir _].
  unfold block_of. cbn [fst snd]. nia.
Qed.

(** Where the extent of the data is more than half the spacing along
    an axis, there is a block along that axis. *)
Lemma block_count_ge_1 (start stop spacing : Q) :
  0 < spacing -> spacing < 2 * (stop - start) ->
  (1 <= block_count start stop spacing)%Z.
Proof.
  intros Hs H. unfold block_count. apply round_half_even_above_half.
  apply Qlt_shift_div_l; [exact Hs | lra].
Qed.

(** The reduction returns once there is a block along each axis. *)
Lemma BlockReduce_filter_returns (spacing : Q) (coords : list (Q * Q))
    (values : list cell) (box : Region) :
  get_region coords = Ok box ->
  (1 <= block_count (r_west box) (r_east box) spacing)%Z ->
  (1 <= block_count (r_south box) (r_north box) spacing)%Z ->
  exists out, BlockReduce_filter spacing coords values = Ok out.
Proof.
  intros Hbox Hc Hr. unfold BlockReduce_filter. rewrite Hbox. cbv zeta.
  destruct (Z.leb_spec (block_count (r_west box) (r_east box) spacing) 0)
    as [Hc' | Hc']; [lia |].
  destruct (Z.leb_spec (block_count (r_south box) (r_north box) spacing) 0)
    as [Hr' | Hr']; [lia |].
  cbn [orb]. eexists. reflexivity.
Qed.

(** One output value per output point, and no more of them than rows
    of the input. *)
Lemma BlockReduce_filter_lengths (spacing : Q) (coords : list (Q * Q))
    (values : list cell) (out : list (Q * Q) * list cell) :
  BlockReduce_filter spacing coords values = Ok out ->
  length (fst out) = length (snd out)
  /\ (length (snd out) <= Nat.min (length coords) (length values))%nat.
Proof.
  intros H. destruct (BlockReduce_filter_ok _ _ _ _ H) as (box & _ & _ & _ & ->).
  cbv zeta. cbn [fst snd]. rewrite !length_map. split; [reflexivity |].
  etransitivity; [apply occupied_length |].
  unfold labels. rewrite length_map, length_combine. apply Nat.le_refl.
Qed.

(** C6, as it is stated, fails: the bins are not of the given spacing.
    With a spacing of 5, the points (0, 0) and (7, 7) fall into one
    block, of side 7, and give one output point, where bins of side 5
    would keep them apart; and on no point at all the reduction raises. *)
Lemma block_reduce_bins_not_of_spacing :
  BlockReduce_filter 5 example_far_points example_far_values
  = Ok ([(7 # 2, 7 # 2)], [Some 2])
  /\ BlockReduce_filter 5 [] []
     = Raise (ValueError "zero-size array to reduction operation minimum which has no identity")
  /\ ~ (forall (spacing : Q) (coords : list (Q * Q)) (values : list cell),
          0 < spacing -> length coords = length values ->
          exists out,
            BlockReduce_filter spacing coords values = Ok out
            /\ forall p q, In p coords -> In q coords ->
                 spacing <= fst q - fst p -> (2 <= length (fst out))%nat).
Proof.
  split; [reflexivity |]. split; [reflexivity |].
  intros H.
  destruct (H 5 example_far_points example_far_values eq_refl eq_refl)
    as (out & Hout & Hfar).
  assert (E : out = ([(7 # 2, 7 # 2)], [Some 2]))
    by (vm_compute in Hout; injection Hout as <-; reflexivity).
  specialize (Hfar (0, 0) (7, 7)). rewrite E in Hfar. cbn in Hfar.
  assert (Hle : (2 <= 1)%nat).
  { apply Hfar; [left; reflexivity | right; left; reflexivity |].
    unfold Qle. cbn. lia. }
  lia.
Qed.

(** C6, amended: for points whose bounding box is longer than half the
    spacing along each axis, block reduction with a positive spacing
    returns.  It lays over the bounding box of the points a grid of
    equal blocks, [round(extent / spacing)] of them along each axis, so
    that the blocks fill the box and their sides are the spacing
    adjusted to fit; every point lies in the block of its label; there
    is one output point per occupied block, in increasing order of the
    labels, whose value, when the values of the block are numbers, is
    their median; and there are no more output points than input
    points. *)
Theorem block_reduce_one_median_per_block :
  forall (spacing : Q) (coords : list (Q * Q)) (values : list cell)
         (box : Region),
    0 < spacing ->
    length coords = length values ->
    get_region coords = Ok box ->
    spacing < 2 * (r_east box - r_west box) ->
    spacing < 2 * (r_north box - r_south box) ->
    exists (out : list (Q * Q) * list cell) (ncols nrows : Z),
      BlockReduce_filter spacing coords values = Ok out
      /\ ncols = round_half_even ((r_east box - r_west box) / spacing)
      /\ nrows = round_half_even ((r_north box - r_south box) / spacing)
      /\ (1 <= ncols)%Z /\ (1 <= nrows)%Z
      /\ inject_Z ncols * block_side (r_west box) (r_east box) ncols
         == r_east box - r_west box
      /\ inject_Z nrows * block_side (r_south box) (r_north box) nrows
         == r_north box - r_south box
      /\ (forall e n, In (e, n) coords ->
            (0 <= block_index (r_west box) (r_east box) ncols e < ncols)%Z
            /\ (0 <= block_index (r_south box) (r_north box) nrows n < nrows)%Z
            /\ r_west box
               + inject_Z (block_index (r_west box) (r_east box) ncols e)
                 * block_side (r_west box) (r_east box) ncols <= e
            /\ e <= r_west box
                    + inject_Z (block_index (r_west box) (r_east box) ncols e + 1)
                      * block_side (r_west box) (r_east box) ncols
            /\ r_south box
               + inject_Z (block_index (r_south box) (r_north box) nrows n)
                 * block_side (r_south box) (r_north box) nrows <= n
            /\ n <= r_south box
                    + inject_Z (block_index (r_south box) (r_north box) nrows n + 1)
                      * block_side (r_south box) (r_north box) nrows)
      /\ exists occ : list Z,
           StronglySorted Z.lt occ
           /\ (forall b, In b occ
                         <-> exists s, In s (combine coords values)
                                       /\ block_of box ncols nrows (fst s) = b)
           /\ length (fst out) = length occ
           /\ length (snd out) = length occ
           /\ (forall k b vs,
                 nth_error occ k = Some b ->
                 map Some vs
                 = map snd (members box ncols nrows b (combine coords values)) ->
                 exists m, nth_error (snd out) k = Some (Some m)
                           /\ is_median vs m)
           /\ (length (snd out) <= length values)%nat.
Proof.
  intros spacing coords values box Hs Hlen Hbox Hwide Hhigh.
  pose proof (block_count_ge_1 _ _ _ Hs Hwide) as Hc.
  pose proof (block_count_ge_1 _ _ _ Hs Hhigh) as Hr.
  destruct (BlockReduce_filter_returns spacing coords values box Hbox Hc Hr)
    as [out Hout].
  exists out.
  destruct (BlockReduce_filter_ok _ _ _ _ Hout) as (box' & Hbox' & _ & _ & Eout).
  rewrite Hbox in Hbox'. injection Hbox' as <-.
  rewrite Eout in Hout |- *. clear Eout.
  cbv zeta in Hout |- *. cbn [fst snd].
  set (ncols := block_count (r_west box) (r_east box) spacing) in *.
  set (nrows := block_count (r_south box) (r_north box) spacing) in *.
  set (samples := combine coords values).
  set (occ := occupied (nrows * ncols) (labels box ncols nrows samples)).
  pose proof (block_count_pos _ _ _ Hs Hc) as Hwe.
  pose proof (block_count_pos _ _ _ Hs Hr) as Hsn.
  exists ncols, nrows.
  repeat match goal with |- _ /\ _ => split end;
    try reflexivity; try assumption.
  - apply block_side_fills, Hc.
  - apply block_side_fills, Hr.
  - intros e n Hin.
    destruct (get_region_bounds _ _ Hbox e n Hin) as (A & B & C & D).
    destruct (block_index_spec _ _ ncols e Hwe Hc A B) as (I1 & I2 & I3).
    destruct (block_index_spec _ _ nrows n Hsn Hr C D) as (J1 & J2 & J3).
    auto 10.
  - exists occ.
    assert (Hocc : forall b, In b occ
               <-> exists s, In s samples /\ block_of box ncols nrows (fst s) = b).
    { intros b. unfold occ. rewrite occupied_In. unfold labels.
      rewrite in_map_iff. split.
      - intros [_ (s & Hb & Hin)]. exists s. auto.
      - intros (s & Hin & Hb). split; [| exists s; auto].
        rewrite <- Hb.
        apply (block_of_in_range spacing coords box (fst s) Hs Hbox Hc Hr).
        destruct s as [pt v]. apply in_combine_l in Hin. exact Hin. }
    repeat match goal with |- _ /\ _ => split end.
    + apply occupied_sorted.
    + exact Hocc.
    + rewrite !length_map. reflexivity.
    + rewrite !length_map. reflexivity.
    + intros k b vs Hk Hvs.
      rewrite !nth_error_map, Hk. cbn [option_map].
      unfold reduce_block. cbn [snd]. fold samples in Hvs.
      destruct (np_median_is_median _ vs Hvs) as (m & -> & Hm).
      * apply nth_error_In, Hocc in Hk. destruct Hk as (s & Hin & Hb).
        intros Hnil.
        assert (Hmem : In s (members box ncols nrows b samples))
          by (apply members_In; auto).
        apply (in_map snd) in Hmem.
        rewrite Hnil in Hmem. exact Hmem.
      * exists m. auto.
    + rewrite !length_map.
      etransitivity; [apply occupied_length |].
      unfold labels, samples. rewrite length_map, length_combine, Hlen.
      rewrite Nat.min_id. apply Nat.le_refl.
Qed.

Lemma block_reduce_one_median_per_block_witness :
  exists m,
    BlockReduce_filter 5 example_points example_values
    = Ok ([(1 # 2, 1); (15 # 2, 2)], [Some 10; Some 0])
    /\ nth_error [Some 10; Some 0] 0 = Some (Some m)
    /\ is_median [5; 15] m.
Proof.
  destruct (block_reduce_one_median_per_block 5 example_points example_values
              (mkRegion 0 8 0 3) eq_refl eq_refl eq_refl eq_refl eq_refl)
    as (out & ncols & nrows & Hout & Hnc & Hnr & _ & _ & _ & _ & _
        & occ & Hsorted & Hocc & Hl1 & Hl2 & Hmed & _).
  assert (Eout : out = ([(1 # 2, 1); (15 # 2, 2)], [Some 10; Some 0])).
  { assert (Hex : BlockReduce_filter 5 example_points example_values
                  = Ok ([(1 # 2, 1); (15 # 2, 2)], [Some 10; Some 0]))
      by reflexivity.
    rewrite Hex in Hout. injection Hout as <-. reflexivity. }
  subst out. cbn in Hnc, Hnr. subst ncols nrows.
  assert (Hk : nth_error occ 0 = Some 0%Z).
  { cbn [fst length] in Hl1.
    destruct occ as [| b0 [| b1 [| b2 occ]]]; try discriminate Hl1.
    assert (H0 : In 0%Z [b0; b1]).
    { apply Hocc. exists ((0, 0), Some 5). split; [left |]; reflexivity. }
    assert (Hb0 : In b0 [b0; b1]) by (left; reflexivity).
    apply Hocc in Hb0. destruct Hb0 as (s & Hs & Hb).
    inversion Hsorted as [| ? ? _ Hlt]; subst.
    inversion Hlt as [| ? ? Hb01 _]; subst.
    destruct H0 as [-> | [-> | []]]; [reflexivity |].
    exfalso.
    destruct Hs as [<- | [<- | [<- | [<- | []]]]]; vm_compute in Hb01;
      discriminate. }
  destruct (Hmed 0%nat 0%Z [5; 15] Hk eq_refl) as (m & Hm & Hmedian).
  exists m. cbn [snd] in Hm. split; [reflexivity |]. auto.
Defined.
(** ** Block reduction does not depend on the order of the rows *)

Lemma map_fst_combine_eq {A B} (l : list A) (l' : list B) :
  length l = length l' -> map fst (combine l l') = l.
Proof.
  revert l'. induction l as [| a l IH]; intros [| b l'] H; try discriminate;
    [reflexivity |].
  cbn. f_equal. apply IH. injection H as H. exact H.
Qed.

Lemma existsb_perm {A} (f : A -> bool) (l l' : list A) :
  Permutation l l' -> existsb f l = existsb f l'.
Proof.
  induction 1 as [| x l l' _ IH | x y l | l l' l'' _ IH1 _ IH2]; cbn.
  - reflexivity.
  - rewrite IH. reflexivity.
  - destruct (f x), (f y); reflexivity.
  - rewrite IH1. exact IH2.
Qed.

Lemma filter_perm {A} (f : A -> bool) (l l' : list A) :
  Permutation l l' -> Permutation (filter f l) (filter f l').
Proof.
  induction 1 as [| x l l' _ IH | x y l | l l' l'' _ IH1 _ IH2]; cbn.
  - constructor.
  - destruct (f x); [constructor |]; exact IH.
  - destruct (f x), (f y); try apply Permutation_refl. constructor.
  - eapply Permutation_trans; eassumption.
Qed.

(** The labels of the points do not change with the representation of
    the bounds of the box. *)
Lemma block_of_comp (box1 box2 : Region) (ncols nrows : Z) (p : Q * Q) :
  r_west box1 == r_west box2 -> r_east box1 == r_east box2 ->
  r_south box1 == r_south box2 -> r_north box1 == r_north box2 ->
  block_of box1 ncols nrows p = block_of box2 ncols nrows p.
Proof.
  intros Hw He Hs Hn. unfold block_of.
  rewrite (block_index_comp _ _ _ _ nrows (snd p) Hs Hn).
  rewrite (block_index_comp _ _ _ _ ncols (fst p) Hw He).
  reflexivity.
Qed.

Lemma block_count_comp (a a' b b' spacing : Q) :
  a == a' -> b == b' -> block_count a b spacing = block_count a' b' spacing.
Proof.
  intros Ha Hb. unfold block_count. apply round_half_even_comp.
  rewrite Ha, Hb. reflexivity.
Qed.

(** The median of an even number of values is the mean of the two in
    the middle of the sorted values. *)
Lemma median_even (vs s : list Q) (n : nat) :
  Permutation vs s -> Sorted Qle s -> length s = (2 * n + 2)%nat ->
  median vs == (nth n s 0 + nth (S n) s 0) / 2.
Proof.
  intros Hp Hs Hlen. unfold median. rewrite Qred_correct.
  assert (Hl : length (sort vs) = (2 * n + 2)%nat)
    by (rewrite sort_length, (Permutation_length Hp); exact Hlen).
  rewrite Hl.
  destruct (even_odd_length (2 * n + 2)) as [(k & E & _) | [(k & E & Ev & Ed) | E]];
    [lia | | lia].
  assert (k = n) by lia. subst k. rewrite Ev, Ed.
  replace (S n - 1)%nat with n by lia.
  assert (Hss : StronglySorted Qle s)
    by (apply Sorted_StronglySorted; [intros x y z; apply Qle_trans | exact Hs]).
  assert (Hps : Permutation (sort vs) s)
    by (eapply Permutation_trans; [apply Permutation_sym, sort_perm | exact Hp]).
  rewrite (sorted_perm_nth (sort vs) s n (sort_strongly_sorted vs) Hss Hps)
    by lia.
  rewrite (sorted_perm_nth (sort vs) s (S n) (sort_strongly_sorted vs) Hss Hps)
    by lia.
  reflexivity.
Qed.

Lemma map_Some_inj {A} (l l' : list A) : map Some l = map Some l' -> l = l'.
Proof.
  revert l'. induction l as [| a l IH]; intros [| b l'] H; try discriminate;
    [reflexivity |].
  injection H as -> H. f_equal. apply IH, H.
Qed.

(** C8: block reduction is a function of the set of the rows and of the
    spacing: two inputs that hold the same points with the same values,
    in whatever order of the rows, give the same outcome, the same
    coordinates and the same values in the same order; and the value of
    a block that holds an even number of values is the mean of the two
    values in the middle of the sorted values of the block. *)
Theorem block_reduce_deterministic :
  forall (spacing : Q) (c1 c2 : list (Q * Q)) (v1 v2 : list cell),
    length c1 = length v1 -> length c2 = length v2 ->
    existsb isnan v1 = false ->
    Permutation (combine c1 v1) (combine c2 v2) ->
    BlockReduce_filter spacing c1 v1 = BlockReduce_filter spacing c2 v2
    /\ (forall box ncols nrows b,
          members box ncols nrows b (combine c1 v1) <> [] ->
          exists vs,
            map snd (members box ncols nrows b (combine c1 v1)) = map Some vs
            /\ forall s n,
                 Permutation vs s -> Sorted Qle s ->
                 length s = (2 * n + 2)%nat ->
                 exists m,
                   snd (reduce_block box ncols nrows (combine c1 v1) b) = Some m
                   /\ m == (nth n s 0 + nth (S n) s 0) / 2).
Proof.
  intros spacing c1 c2 v1 v2 Hl1 Hl2 Hnan Hp. split.
  - assert (Hc : Permutation c1 c2).
    { rewrite <- (map_fst_combine_eq c1 v1 Hl1), <- (map_fst_combine_eq c2 v2 Hl2).
      apply Permutation_map, Hp. }
    unfold BlockReduce_filter.
    destruct (get_region c1) as [box1 | e] eqn:E1.
    + destruct (get_region c2) as [box2 | e] eqn:E2.
      * destruct (get_region_perm _ _ _ _ Hc E1 E2) as (Hw & He & Hs & Hn).
        cbv zeta.
        rewrite (block_count_comp _ _ _ _ spacing Hw He).
        rewrite (block_count_comp _ _ _ _ spacing Hs Hn).
        set (ncols := block_count (r_west box2) (r_east box2) spacing).
        set (nrows := block_count (r_south box2) (r_north box2) spacing).
        destruct ((ncols <=? 0)%Z || (nrows <=? 0)%Z)%bool; [reflexivity |].
        assert (Hlab : forall p, block_of box1 ncols nrows p
                                 = block_of box2 ncols nrows p)
          by (intros p; apply block_of_comp; assumption).
        assert (Hocc : occupied (nrows * ncols)
                         (labels box1 ncols nrows (combine c1 v1))
                       = occupied (nrows * ncols)
                           (labels box2 ncols nrows (combine c2 v2))).
        { unfold occupied. apply filter_ext. intros b.
          apply existsb_perm. unfold labels.
          rewrite (map_ext _ _ (fun s => Hlab (fst s))).
          apply Permutation_map, Hp. }
        rewrite Hocc.
        assert (Hred : forall b,
                   reduce_block box1 ncols nrows (combine c1 v1) b
                   = reduce_block box2 ncols nrows (combine c2 v2) b).
        { intros b. unfold reduce_block. cbv zeta.
          assert (Hm : Permutation (members box1 ncols nrows b (combine c1 v1))
                                   (members box2 ncols nrows b (combine c2 v2))).
          { unfold members.
            rewrite (filter_ext _ _
                       (fun s => f_equal (fun z => Z.eqb z b) (Hlab (fst s)))).
            apply filter_perm, Hp. }
          rewrite (median_perm _ _ (Permutation_map (fun s => fst (fst s)) Hm)).
          rewrite (median_perm _ _ (Permutation_map (fun s => snd (fst s)) Hm)).
          rewrite (np_median_perm _ _ (Permutation_map snd Hm)).
          reflexivity. }
        rewrite (map_ext _ _ Hred). reflexivity.
      * apply (get_region_perm_raise _ _ _ (Permutation_sym Hc)) in E2.
        rewrite E2 in E1. discriminate.
    + rewrite (get_region_perm_raise _ _ _ Hc E1). reflexivity.
  - intros box ncols nrows b Hne.
    set (ms := members box ncols nrows b (combine c1 v1)) in *.
    assert (Hfin : Forall (fun c => isnan c = false) (map snd ms)).
    { apply Forall_forall. intros c Hin.
      apply in_map_iff in Hin. destruct Hin as (s & <- & Hin).
      unfold ms, members in Hin. apply filter_In in Hin. destruct Hin as [Hin _].
      destruct s as [pt v]. apply in_combine_r in Hin. cbn [snd].
      destruct (isnan v) eqn:Ev; [| reflexivity].
      assert (Hex : existsb isnan v1 = true)
        by (apply existsb_exists; exists v; auto).
      rewrite Hex in Hnan. discriminate. }
    destruct (all_finite_of_no_nan _ Hfin) as (vs & Efin & Evs).
    exists vs. split; [symmetry; exact Evs |].
    intros s n Hps Hsorted Hlen.
    unfold reduce_block. cbv zeta. cbn [snd]. fold ms.
    unfold np_median. rewrite Efin.
    destruct vs as [| v vs].
    + destruct ms; [contradiction | discriminate].
    + exists (median (v :: vs)). split; [reflexivity |].
      apply median_even; assumption.
Qed.

Lemma block_reduce_deterministic_witness :
  BlockReduce_filter 5 example_points example_values
  = BlockReduce_filter 5 example_points_shuffled example_values_shuffled
  /\ exists m,
       snd (reduce_block (mkRegion 0 8 0 3) 2 1
              (combine example_points example_values) 0%Z) = Some m
       /\ m == (5 + 15) / 2.
Proof.
  assert (Hp : Permutation (combine example_points example_values)
                 (combine example_points_shuffled example_values_shuffled)).
  { cbn.
    apply (Permutation_cons_app [(8, 3, Some 25)]
             [(7, 1, Some (-25)); (1, 2, Some 15)]).
    apply (Permutation_cons_app [(8, 3, Some 25); (7, 1, Some (-25))] []).
    apply perm_swap. }
  destruct (block_reduce_deterministic 5 example_points example_points_shuffled
              example_values example_values_shuffled eq_refl eq_refl eq_refl Hp)
    as [Heq Hmed].
  split; [exact Heq |].
  destruct (Hmed (mkRegion 0 8 0 3) 2%Z 1%Z 0%Z) as (vs & Evs & Hm).
  { vm_compute. discriminate. }
  assert (E : vs = [5; 15]).
  { apply map_Some_inj. rewrite <- Evs. vm_compute. reflexivity. }
  subst vs.
  destruct (Hm [5; 15] 0%nat (Permutation_refl _)) as (m & Em & Hmv).
  - repeat constructor; unfold Qle; cbn; lia.
  - reflexivity.
  - exists m. split; [exact Em | exact Hmv].
Defined.
(** ** Cells of the arrays *)

Lemma nth_error_combine {A B} (l : list A) (l' : list B) (n : nat) :
  nth_error (combine l l') n =
  match nth_error l n, nth_error l' n with
  | Some a, Some b => Some (a, b)
  | _, _ => None
  end.
Proof.
  revert l l'. induction n as [| n IH]; intros [| a l] [| b l']; cbn;
    try reflexivity.
  - destruct (nth_error l n); reflexivity.
  - apply IH.
Qed.

Lemma at2_table {A B C} (f : A -> B -> C) (c0 : list B) (c1 : list A)
    (i j : nat) :
  at2 (map (fun n => map (fun e => f e n) c1) c0) i j =
  match nth_error c0 i, nth_error c1 j with
  | Some n, Some e => Some (f e n)
  | _, _ => None
  end.
Proof.
  unfold at2. rewrite nth_error_map.
  destruct (nth_error c0 i) as [n |]; cbn; [| reflexivity].
  rewrite nth_error_map. destruct (nth_error c1 j); reflexivity.
Qed.

Lemma at2_where2 (a : ndarray2) (m : list (list bool)) (i j : nat) :
  at2 (where2 a m) i j =
  match at2 a i j, at2 m i j with
  | Some v, Some b => Some (if b then v else None)
  | _, _ => None
  end.
Proof.
  unfold at2, where2, where_row.
  rewrite nth_error_map, nth_error_combine.
  destruct (nth_error a i) as [r |]; cbn; [| reflexivity].
  destruct (nth_error m i) as [mr |]; cbn.
  - rewrite nth_error_map, nth_error_combine.
    destruct (nth_error r j); cbn; [| reflexivity].
    destruct (nth_error mr j); reflexivity.
  - destruct (nth_error r j); reflexivity.
Qed.

Lemma at2_fillna2 (value : cell) (a : ndarray2) (i j : nat) :
  at2 (fillna2 value a) i j = option_map (fill_cell value) (at2 a i j).
Proof.
  unfold at2, fillna2. rewrite nth_error_map.
  destruct (nth_error a i) as [r |]; cbn; [| reflexivity].
  apply nth_error_map.
Qed.

Lemma all_finite_eq (l : list cell) (vs : list Q) :
  all_finite l = Some vs -> l = map Some vs.
Proof.
  revert vs. induction l as [| c l IH]; intros vs; cbn.
  - intros H. injection H as <-. reflexivity.
  - destruct c as [v |]; [| discriminate].
    destruct (all_finite l) as [ws |]; [| discriminate].
    intros H. injection H as <-. cbn. rewrite (IH ws eq_refl). reflexivity.
Qed.

Lemma all_finite2_eq (a : ndarray2) (vs : list (list Q)) :
  all_finite2 a = Some vs -> a = map (map Some) vs.
Proof.
  revert vs. induction a as [| r a IH]; intros vs; cbn.
  - intros H. injection H as <-. reflexivity.
  - destruct (all_finite r) as [ws |] eqn:E; [| discriminate].
    destruct (all_finite2 a) as [rest |]; [| discriminate].
    intros H. injection H as <-. cbn.
    rewrite (all_finite_eq _ _ E), (IH rest eq_refl). reflexivity.
Qed.

Lemma at2_map_map {A B} (f : A -> B) (a : list (list A)) (i j : nat) :
  at2 (map (map f) a) i j = option_map f (at2 a i j).
Proof.
  unfold at2. rewrite nth_error_map.
  destruct (nth_error a i) as [r |]; cbn; [| reflexivity].
  apply nth_error_map.
Qed.

Lemma nth_error_seq (start len n : nat) :
  nth_error (seq start len) n
  = if Nat.ltb n len then Some (start + n)%nat else None.
Proof.
  destruct (Nat.ltb_spec n len) as [H | H].
  - rewrite (nth_error_nth' _ 0%nat) by (rewrite length_seq; exact H).
    rewrite seq_nth by exact H. reflexivity.
  - apply nth_error_None. rewrite length_seq. exact H.
Qed.

Lemma at2_tabulate2 {A B} (vs : list (list A)) (f : nat -> nat -> B)
    (i j : nat) :
  at2 (tabulate2 vs f) i j = option_map (fun _ => f i j) (at2 vs i j).
Proof.
  unfold at2, tabulate2. rewrite nth_error_map, nth_error_seq.
  destruct (nth_error vs i) as [r |] eqn:E.
  - assert (Hi : (i < length vs)%nat)
      by (apply nth_error_Some; rewrite E; discriminate).
    apply Nat.ltb_lt in Hi. rewrite Hi. cbn.
    rewrite nth_error_map, nth_error_seq.
    rewrite (nth_error_nth _ _ [] E).
    destruct (nth_error r j) as [v |] eqn:Ej.
    + assert (Hj : (j < length r)%nat)
        by (apply nth_error_Some; rewrite Ej; discriminate).
      apply Nat.ltb_lt in Hj. rewrite Hj. reflexivity.
    + apply nth_error_None in Ej. apply Nat.ltb_ge in Ej. rewrite Ej.
      reflexivity.
  - apply nth_error_None in E. apply Nat.ltb_ge in E. rewrite E. reflexivity.
Qed.

Lemma find_var_map (g : ndarray2 -> ndarray2) (name : string)
    (vars : list (string * ndarray2)) :
  find_var name (map (fun kv => (fst kv, g (snd kv))) vars)
  = option_map g (find_var name vars).
Proof.
  induction vars as [| [k a] vars IH]; cbn; [reflexivity |].
  destruct (String.eqb k name); [reflexivity | exact IH].
Qed.

(** ** The distance mask *)

Lemma within_iff (pts : list (Q * Q)) (maxdist : Q) (c : Q * Q) :
  within pts maxdist c = true
  <-> exists p, In p pts /\ dist2 p c <= maxdist * maxdist.
Proof.
  unfold within. rewrite existsb_exists.
  split; intros (p & H1 & H2); exists p; split; try assumption;
    apply Qle_bool_iff; assumption.
Qed.

(** A cell of a masked grid: the cell of the grid where the node is
    near a data point, NaN elsewhere. *)
Lemma distance_mask_cell (pts : list (Q * Q)) (maxdist : Q) (ds : Dataset)
    (name : string) (a : ndarray2) (i j : nat) :
  find_var name (ds_vars ds) = Some a ->
  exists a',
    find_var name (ds_vars (distance_mask pts maxdist ds)) = Some a'
    /\ at2 a' i j =
       match at2 a i j, masked_by_distance pts maxdist ds i j with
       | Some v, Some masked => Some (if masked then None else v)
       | _, _ => None
       end.
Proof.
  intros Ha. unfold distance_mask. cbn [ds_vars].
  set (m := mask_of pts maxdist (ds_coords0 ds) (ds_coords1 ds)).
  pose proof (find_var_map (fun x => where2 x m) name (ds_vars ds)) as Hf.
  cbv beta in Hf. rewrite Hf, Ha. cbn [option_map].
  eexists. split; [reflexivity |]. subst m.
  rewrite at2_where2. unfold mask_of, masked_by_distance.
  rewrite (at2_table (fun e n => within pts maxdist (e, n))).
  destruct (at2 a i j) as [v |]; [| reflexivity].
  destruct (nth_error (ds_coords0 ds) i) as [n |]; [| reflexivity].
  destruct (nth_error (ds_coords1 ds) j) as [e |]; [| reflexivity].
  destruct (within pts maxdist (e, n)); reflexivity.
Qed.

Lemma anomaly_at_distance_mask (pts : list (Q * Q)) (maxdist : Q)
    (ds : Dataset) (i j : nat) :
  anomaly_at (distance_mask pts maxdist ds) i j =
  match anomaly_at ds i j, masked_by_distance pts maxdist ds i j with
  | Some v, Some masked => Some (if masked then None else v)
  | _, _ => None
  end.
Proof.
  unfold anomaly_at.
  destruct (find_var "total_field_anomaly" (ds_vars ds)) as [a |] eqn:E.
  - destruct (distance_mask_cell pts maxdist ds _ a i j E) as (a' & -> & H).
    exact H.
  - unfold distance_mask. cbn [ds_vars].
    set (m := mask_of pts maxdist (ds_coords0 ds) (ds_coords1 ds)).
    pose proof (find_var_map (fun x => where2 x m) "total_field_anomaly"
                  (ds_vars ds)) as Hf.
    cbv beta in Hf. rewrite Hf, E. reflexivity.
Qed.


(** C5: in the interpolated grid, masked from the full grid by the
    distance criterion, a cell holds a value only if its node is within
    the threshold of some decimated point (distances compared through
    their squares), and a cell whose node is farther than the threshold
    from every decimated point is NaN.  The script calls the mask with
    the threshold 20. *)
Theorem interpolated_cell_defined_only_near_data :
  forall (coordinates : list (Q * Q)) (maxdist : Q) (grid_full : Dataset)
         (i j : nat),
    let masked := distance_mask coordinates maxdist grid_full in
    (forall v, anomaly_at masked i j = Some (Some v) ->
       exists n e p,
         nth_error (ds_coords0 grid_full) i = Some n
         /\ nth_error (ds_coords1 grid_full) j = Some e
         /\ In p coordinates
         /\ dist2 p (e, n) <= maxdist * maxdist)
    /\ (forall n e,
          nth_error (ds_coords0 grid_full) i = Some n ->
          nth_error (ds_coords1 grid_full) j = Some e ->
          (forall p, In p coordinates -> maxdist * maxdist < dist2 p (e, n)) ->
          forall c, anomaly_at masked i j = Some c -> c = None).
Proof.
  intros pts maxdist g i j masked. unfold masked.
  rewrite anomaly_at_distance_mask. unfold masked_by_distance.
  split.
  - intros v H.
    destruct (anomaly_at g i j) as [c |]; [| discriminate].
    destruct (nth_error (ds_coords0 g) i) as [n |]; [| discriminate].
    destruct (nth_error (ds_coords1 g) j) as [e |]; [| discriminate].
    destruct (within pts maxdist (e, n)) eqn:W; [| discriminate].
    apply within_iff in W. destruct W as (p & Hp & Hd).
    exists n, e, p. auto.
  - intros n e -> -> Hfar c H.
    destruct (anomaly_at g i j) as [c0 |]; [| discriminate].
    destruct (within pts maxdist (e, n)) eqn:W.
    + apply within_iff in W. destruct W as (p & Hp & Hd).
      exfalso. apply (Qlt_not_le _ _ (Hfar p Hp)). exact Hd.
    + cbn in H. injection H as <-. reflexivity.
Qed.

Lemma interpolated_cell_defined_only_near_data_witness :
  (exists n e p,
     nth_error (ds_coords0 example_grid) 0 = Some n
     /\ nth_error (ds_coords1 example_grid) 0 = Some e
     /\ In p example_points
     /\ dist2 p (e, n) <= 20 * 20)
  /\ (forall c,
        anomaly_at (distance_mask example_points 20 example_grid) 1 1 = Some c ->
        c = None).
Proof.
  destruct (interpolated_cell_defined_only_near_data
              example_points 20 example_grid 0 0) as [Hnear _].
  destruct (interpolated_cell_defined_only_near_data
              example_points 20 example_grid 1 1) as [_ Hfar].
  split.
  - apply (Hnear 1). reflexivity.
  - apply (Hfar 100 100 eq_refl eq_refl).
    intros p [<- | [<- | [<- | [<- | []]]]]; reflexivity.
Defined.

(** ** The pole reduction keeps the grid *)

(** The pole-reduced array lies on the nodes of the full grid and has a
    value exactly where the full grid has a cell. *)
Lemma pole_reduced_on_same_grid
    (kernel : list (list Q) -> Q -> Q -> nat -> nat -> Q)
    (g : Dataset) (f : xrobj) (inc dec : pyval) (r : DataArray) :
  result (fill g) = Ok f ->
  reduction_to_pole kernel f inc dec = Ok r ->
  da_coords0 r = ds_coords0 g
  /\ da_coords1 r = ds_coords1 g
  /\ exists (vs : list (list Q)) (iq dq : Q),
       forall i j,
         at2 (da_values r) i j
         = option_map (fun _ => Some (kernel vs iq dq i j)) (anomaly_at g i j).
Proof.
  rewrite fill_unfold. unfold getattr, anomaly_at.
  destruct (truth_value (ds_vars g)).
  - destruct (find_var "total_field_anomaly" (ds_vars g)) as [a |];
      rewrite result_pair; [| discriminate].
    intros H. injection H as <-.
    unfold reduction_to_pole, fillna. cbn [da_values da_dims da_coords0 da_coords1].
    destruct (all_finite2 _) as [vs |] eqn:E; [| discriminate].
    destruct (as_float inc) as [iq | e]; [| discriminate].
    destruct (as_float dec) as [dq | e]; [| discriminate].
    intros H. injection H as <-. cbn [da_values da_coords0 da_coords1].
    repeat split. exists vs, iq, dq. intros i j.
    rewrite at2_tabulate2.
    apply all_finite2_eq in E.
    assert (E2 : at2 (fillna2 (np_nanmedian (ravel a)) a) i j
                 = at2 (map (map Some) vs) i j) by (rewrite E; reflexivity).
    rewrite at2_fillna2, at2_map_map in E2.
    destruct (at2 a i j), (at2 vs i j); try discriminate; reflexivity.
  - rewrite result_pair. intros H. injection H as <-. discriminate.
Qed.


Lemma ends_normally_ok {A} (m : M A) :
  ends_normally m = true -> exists a, result m = Ok a.
Proof.
  unfold ends_normally. destruct (result m) as [a | e]; [eauto | discriminate].
Qed.

Lemma example_run_ends_normally :
  exists s p, result (script example_world) = Ok (s, p).
Proof.
  destruct (ends_normally_ok (script example_world)) as [[s p] E].
  - vm_compute. reflexivity.
  - exists s, p. exact E.
Qed.




(** ** The NaN branch *)

Lemma In_at2 {A} (a : list (list A)) (c : A) :
  In c (concat a) <-> exists i j, at2 a i j = Some c.
Proof.
  rewrite in_concat. unfold at2. split.
  - intros (r & Hr & Hc).
    apply In_nth_error in Hr. destruct Hr as [i Hi].
    apply In_nth_error in Hc. destruct Hc as [j Hj].
    exists i, j. rewrite Hi. exact Hj.
  - intros (i & j & H).
    destruct (nth_error a i) as [r |] eqn:E; [| discriminate].
    exists r. split; eapply nth_error_In; eassumption.
Qed.

Lemma dropna_all_nan (l : list cell) :
  (forall c, In c l -> c = None) -> dropna l = [].
Proof.
  induction l as [| c l IH]; intros H; [reflexivity |].
  rewrite (H c (or_introl eq_refl)). cbn. apply IH.
  intros c' Hc. apply H. right. exact Hc.
Qed.

(** The NaN-ignoring median of a grid with a finite cell is a number,
    a median of its finite cells. *)
Lemma np_nanmedian_finite (l : list cell) :
  dropna l <> [] ->
  np_nanmedian l = Some (median (dropna l))
  /\ is_median (dropna l) (median (dropna l)).
Proof.
  intros H. split; [| apply median_is_median, H].
  unfold np_nanmedian. destruct (dropna l); [contradiction | reflexivity].
Qed.

(** Filling a grid without NaN changes nothing. *)
Lemma fillna2_no_nan (value : cell) (a : ndarray2) :
  existsb isnan (ravel a) = false -> fillna2 value a = a.
Proof.
  unfold fillna2, ravel. induction a as [| r a IH]; [reflexivity |].
  cbn [concat map]. rewrite existsb_app. intros H.
  apply orb_false_iff in H. destruct H as [Hr Ha].
  rewrite (IH Ha). f_equal.
  clear IH Ha. induction r as [| c r IH]; [reflexivity |].
  cbn in Hr. apply orb_false_iff in Hr. destruct Hr as [Hc Hr].
  cbn [map]. rewrite (IH Hr). destruct c; [reflexivity | discriminate].
Qed.

(** C1: the branch fills instead of failing.  Whatever the cells of the
    full grid hold, what goes to the pole reduction is the anomaly array
    on the same nodes, with every cell that holds a number unchanged.
    When the grid has a finite cell, every NaN cell holds the median of
    the finite cells of the grid (the middle one of the sorted values,
    or the mean of the two middle ones), and no NaN is left.  When the
    grid has no NaN cell, its values go on unchanged. *)
Theorem nan_cells_filled_with_median :
  forall (grid_full : Dataset) (a : ndarray2),
    find_var "total_field_anomaly" (ds_vars grid_full) = Some a ->
    exists f,
      fill grid_full = ([EvPrint MsgNans], Ok (XDataArray f))
      /\ da_coords0 f = ds_coords0 grid_full
      /\ da_coords1 f = ds_coords1 grid_full
      /\ (forall i j v, at2 a i j = Some (Some v) ->
            at2 (da_values f) i j = Some (Some v))
      /\ (forall i j, at2 a i j = None -> at2 (da_values f) i j = None)
      /\ (dropna (ravel a) <> [] ->
          exists m,
            is_median (dropna (ravel a)) m
            /\ (forall i j, at2 a i j = Some None ->
                  at2 (da_values f) i j = Some (Some m))
            /\ forall i j, at2 (da_values f) i j <> Some None)
      /\ (existsb isnan (ravel a) = false -> da_values f = a).
Proof.
  intros g a Ha. rewrite (fill_with_variable g a Ha).
  eexists. split; [reflexivity |].
  unfold fillna. cbn [da_values da_coords0 da_coords1].
  repeat match goal with |- _ /\ _ => split end; try reflexivity.
  - intros i j v H. rewrite at2_fillna2, H. reflexivity.
  - intros i j H. rewrite at2_fillna2, H. reflexivity.
  - intros Hfin.
    destruct (np_nanmedian_finite (ravel a) Hfin) as [-> Hmed].
    exists (median (dropna (ravel a))). split; [exact Hmed |]. split.
    + intros i j H. rewrite at2_fillna2, H. reflexivity.
    + intros i j. rewrite at2_fillna2.
      destruct (at2 a i j) as [[w |] |]; discriminate.
  - apply fillna2_no_nan.
Qed.

Lemma nan_cells_filled_with_median_witness :
  (exists f m,
     fill example_grid = ([EvPrint MsgNans], Ok (XDataArray f))
     /\ is_median [1; 2; 4] m
     /\ at2 (da_values f) 1 0 = Some (Some m)
     /\ at2 (da_values f) 1 1 = Some (Some 4))
  /\ (exists f,
        fill example_grid_full = ([EvPrint MsgNans], Ok (XDataArray f))
        /\ da_values f = [[Some 1; Some 2]; [Some 3; Some 4]]).
Proof.
  split.
  - destruct (nan_cells_filled_with_median example_grid
                [[Some 1; Some 2]; [None; Some 4]] eq_refl)
      as (f & Ef & _ & _ & Hkeep & _ & Hfill & _).
    destruct Hfill as (m & Hm & Hnan & _); [discriminate |].
    exists f, m. split; [exact Ef |]. split; [exact Hm |].
    split; [apply (Hnan 1%nat 0%nat); reflexivity |].
    apply (Hkeep 1%nat 1%nat 4). reflexivity.
  - destruct (nan_cells_filled_with_median example_grid_full
                [[Some 1; Some 2]; [Some 3; Some 4]] eq_refl)
      as (f & Ef & _ & _ & _ & _ & _ & Hsame).
    exists f. split; [exact Ef |]. apply Hsame. reflexivity.
Defined.
(** ** The two forms of [filled] *)

(** The second branch is that of a data set without any variable. *)
Lemma fill_copy_iff (g : Dataset) :
  result (fill g) = Ok (XDataset (copy g)) <-> ds_vars g = [].
Proof.
  rewrite fill_unfold. destruct (ds_vars g) as [| kv vars] eqn:E; cbn.
  - split; reflexivity.
  - split; [| discriminate].
    destruct (getattr g _); discriminate.
Qed.

Lemma nan_branch_report_ok (m : M (Site * Products)) (a b c : bool) :
  nan_branch_report m = Some (a, b, c) ->
  exists s p,
    result m = Ok (s, p)
    /\ anomaly_has_nan (grid_full p) = a
    /\ existsb is_nans_message (log m) = b
    /\ is_data_array (filled p) = c.
Proof.
  unfold nan_branch_report. destruct (result m) as [[s p] | e]; [| discriminate].
  intros H. injection H as H1 H2 H3. exists s, p. auto.
Qed.

(** C10: the check on line 152 takes the truth value of a data set,
    which is true as soon as the data set has a variable, whatever its
    cells hold.  On a grid without any NaN cell the first branch is
    taken all the same: the message is printed, and [filled] is the
    single anomaly array, not a copy of the data set (which the pole
    reduction would refuse).  So it is in the run on the small survey,
    whose spline has a value at every node. *)
Theorem nan_free_grid_takes_the_nan_branch :
  anomaly_has_nan example_grid_full = false
  /\ fill example_grid_full
     = ([EvPrint MsgNans],
        Ok (XDataArray
              (mkDataArray ("easting", "northing") [0; 100] [0; 100]
                           [[Some 1; Some 2]; [Some 3; Some 4]])))
  /\ result (fill example_grid_full)
     <> Ok (XDataset (copy example_grid_full))
  /\ (forall kernel inc dec,
        reduction_to_pole kernel (XDataset (copy example_grid_full)) inc dec
        = Raise (ValueError "the grid must be an xarray.DataArray"))
  /\ exists s p,
       result (script example_world) = Ok (s, p)
       /\ anomaly_has_nan (grid_full p) = false
       /\ existsb is_nans_message (log (script example_world)) = true
       /\ is_data_array (filled p) = true.
Proof.
  split; [reflexivity |]. split; [reflexivity |].
  split; [| split].
  - intros H. apply fill_copy_iff in H. discriminate.
  - reflexivity.
  - apply nan_branch_report_ok. vm_compute. reflexivity.
Qed.
(** ** Shapes *)

Lemma rows_of_width_table {A B C} (f : A -> B -> C) (c0 : list B)
    (c1 : list A) :
  rows_of_width (length c1) (map (fun n => map (fun e => f e n) c1) c0).
Proof.
  apply Forall_forall. intros r Hr. apply in_map_iff in Hr.
  destruct Hr as (n & <- & _). apply length_map.
Qed.

Lemma rows_of_width_map_map {A B} (f : A -> B) (w : nat) (a : list (list A)) :
  rows_of_width w (map (map f) a) <-> rows_of_width w a.
Proof.
  unfold rows_of_width. rewrite Forall_map.
  split; apply Forall_impl; intros r; rewrite length_map; auto.
Qed.

Lemma rows_of_width_tabulate2 {A B} (w : nat) (vs : list (list A))
    (f : nat -> nat -> B) :
  rows_of_width w vs -> rows_of_width w (tabulate2 vs f).
Proof.
  unfold rows_of_width, tabulate2. intros H.
  apply Forall_forall. intros r Hr. apply in_map_iff in Hr.
  destruct Hr as (i & <- & Hi). rewrite length_map, length_seq.
  apply in_seq in Hi. rewrite Forall_forall in H.
  apply H, nth_In. lia.
Qed.

Lemma length_tabulate2 {A B} (vs : list (list A)) (f : nat -> nat -> B) :
  length (tabulate2 vs f) = length vs.
Proof. unfold tabulate2. rewrite length_map, length_seq. reflexivity. Qed.

Lemma rows_of_width_where2 (w : nat) (a : ndarray2) (m : list (list bool)) :
  rows_of_width w a -> rows_of_width w m -> rows_of_width w (where2 a m).
Proof.
  unfold rows_of_width, where2, where_row. intros Ha Hm.
  rewrite Forall_forall in *. intros r Hr. apply in_map_iff in Hr.
  destruct Hr as ([x y] & <- & Hin). cbn [fst snd].
  rewrite length_map, length_combine.
  rewrite (Ha x (in_combine_l _ _ _ _ Hin)), (Hm y (in_combine_r _ _ _ _ Hin)).
  apply Nat.min_id.
Qed.

Lemma length_where2 (a : ndarray2) (m : list (list bool)) :
  length (where2 a m) = Nat.min (length a) (length m).
Proof. unfold where2. rewrite length_map. apply length_combine. Qed.

Lemma rows_of_width_rev {A} (w : nat) (a : list (list A)) :
  rows_of_width w a -> rows_of_width w (rev a).
Proof. unfold rows_of_width. apply Forall_rev. Qed.

(** The pole-reduced array has the shape of the full grid. *)
Lemma pole_reduced_shape
    (kernel : list (list Q) -> Q -> Q -> nat -> nat -> Q)
    (g : Dataset) (a : ndarray2) (f : xrobj) (inc dec : pyval)
    (r : DataArray) (w : nat) :
  find_var "total_field_anomaly" (ds_vars g) = Some a ->
  rows_of_width w a ->
  result (fill g) = Ok f ->
  reduction_to_pole kernel f inc dec = Ok r ->
  length (da_values r) = length a /\ rows_of_width w (da_values r).
Proof.
  intros Ha Hw. rewrite (fill_with_variable g a Ha), result_pair.
  intros H. injection H as <-.
  unfold reduction_to_pole, fillna.
  cbn [da_values da_dims da_coords0 da_coords1].
  destruct (all_finite2 _) as [vs |] eqn:E; [| discriminate].
  destruct (as_float inc) as [iq | e]; [| discriminate].
  destruct (as_float dec) as [dq | e]; [| discriminate].
  intros H. injection H as <-. cbn [da_values].
  apply all_finite2_eq in E.
  assert (Hlen : length vs = length a).
  { apply (f_equal (@length _)) in E. unfold fillna2 in E.
    rewrite !length_map in E. symmetry. exact E. }
  assert (Hvs : rows_of_width w vs).
  { apply (rows_of_width_map_map Some). rewrite <- E.
    unfold fillna2. apply rows_of_width_map_map. exact Hw. }
  split.
  - rewrite length_tabulate2. exact Hlen.
  - apply rows_of_width_tabulate2, Hvs.
Qed.

(** ** The raster *)

Lemma from_bounds_origin (west south east north : Q) (width height : nat) :
  fst (affine_apply (from_bounds west south east north width height) 0 0)
  == west
  /\ snd (affine_apply (from_bounds west south east north width height) 0 0)
     == north.
Proof.
  unfold from_bounds, affine_apply, affine_mul, translation, scale.
  cbn [af_a af_b af_c af_d af_e af_f fst snd]. split; ring.
Qed.

(** C4: in a run that ends normally one raster is written; its declared
    height and width are the row and column counts of the final,
    flipped array, which has one row per row of nodes of the grid and,
    in each row, one cell per column of nodes; its transform is
    computed from the bounds of the region, the bounding box of the
    decimated points padded by 50, and from that shape, and it sends
    pixel (0, 0) to the west and north edges of the region. *)
Theorem raster_shape_and_origin :
  forall (X : Externals) (s : Site) (p : Products),
    result (script X) = Ok (s, p) ->
    exists (r : Raster) (box : Region) (squeezed : ndarray2),
      rasters_written (log (script X)) = [(tif_path, r)]
      /\ squeeze2 (to_array_values (gridReduced p)) = Ok squeezed
      /\ reducedMag p = flipud squeezed
      /\ ra_band1 r = reducedMag p
      /\ ra_height r = shape0 (reducedMag p)
      /\ ra_width r = shape1 (reducedMag p)
      /\ shape0 (reducedMag p) = length (ds_coords0 (gridReduced p))
      /\ rows_of_width (length (ds_coords1 (gridReduced p))) (reducedMag p)
      /\ get_region (coordinates p) = Ok box
      /\ region p = pad_region box 50
      /\ ra_transform r
         = from_bounds (r_west (region p)) (r_south (region p))
                       (r_east (region p)) (r_north (region p))
                       (shape1 (reducedMag p)) (shape0 (reducedMag p))
      /\ fst (affine_apply (ra_transform r) 0 0) == r_west box - 50
      /\ snd (affine_apply (ra_transform r) 0 0) == r_north box + 50.
Proof.
  intros X s p H. apply script_ok in H. destruct H as [C Hw].
  destruct C as (_ & _ & _ & _ & (box & Ebox & Ereg) & Eg & _ & Ef & Er
                 & Egr & (sq & Esq & Emag) & _).
  exists (raster_of (region p) (reducedMag p)), box, sq.
  destruct (from_bounds_origin (r_west (region p)) (r_south (region p))
              (r_east (region p)) (r_north (region p))
              (shape1 (reducedMag p)) (shape0 (reducedMag p))) as [Ow On].
  assert (Ha : find_var "total_field_anomaly" (ds_vars (grid_full p))
               = Some (map (fun n =>
                         map (fun e =>
                           x_spline X 500 (1 # 10000000000) (coordinates p)
                                    (magField p) (e, n))
                             (ds_coords1 (grid_full p)))
                         (ds_coords0 (grid_full p)))).
  { rewrite Eg at 1. unfold grid. cbn [ds_vars find_var].
    rewrite String.eqb_refl. rewrite Eg. reflexivity. }
  destruct (pole_reduced_shape _ _ _ _ _ _ _ (length (ds_coords1 (grid_full p)))
              Ha (rows_of_width_table _ _ _) Ef Er) as [Hlen Hrows].
  rewrite length_map in Hlen.
  destruct (pole_reduced_on_same_grid _ _ _ _ _ _ Ef Er) as (Ec0 & Ec1 & _).
  assert (Esq' : sq = where2 (da_values (rtp_grid p))
                        (mask_of (coordinates p) 20 (ds_coords0 (grid_full p))
                                 (ds_coords1 (grid_full p)))).
  { rewrite Egr in Esq. unfold distance_mask, to_dataset, to_array_values in Esq.
    cbn [ds_vars ds_coords0 ds_coords1 map fst snd] in Esq.
    rewrite Ec0, Ec1 in Esq. unfold squeeze2 in Esq.
    destruct (_ || _)%bool in Esq; [discriminate |].
    injection Esq as <-. reflexivity. }
  assert (Ecoords : ds_coords0 (gridReduced p) = ds_coords0 (grid_full p)
                    /\ ds_coords1 (gridReduced p) = ds_coords1 (grid_full p)).
  { rewrite Egr. unfold distance_mask, to_dataset.
    cbn [ds_coords0 ds_coords1]. auto. }
  destruct Ecoords as [-> ->].
  repeat match goal with |- _ /\ _ => split end;
    try reflexivity; try assumption.
  - rewrite Emag, Esq'. unfold shape0, flipud.
    rewrite length_rev, length_where2, Hlen.
    unfold mask_of. rewrite length_map. apply Nat.min_id.
  - rewrite Emag, Esq'. apply rows_of_width_rev, rows_of_width_where2.
    + exact Hrows.
    + unfold mask_of.
      apply (rows_of_width_table (fun e n => within (coordinates p) 20 (e, n))).
  - cbn [raster_of ra_transform region_nth] in *.
    rewrite Ow, Ereg. reflexivity.
  - cbn [raster_of ra_transform region_nth] in *.
    rewrite On, Ereg. reflexivity.
Qed.

Lemma raster_shape_and_origin_witness :
  exists s p r,
    result (script example_world) = Ok (s, p)
    /\ rasters_written (log (script example_world)) = [(tif_path, r)]
    /\ ra_height r = shape0 (reducedMag p)
    /\ ra_width r = shape1 (reducedMag p)
    /\ fst (affine_apply (ra_transform r) 0 0) == r_west (region p)
    /\ snd (affine_apply (ra_transform r) 0 0) == r_north (region p).
Proof.
  destruct example_run_ends_normally as (s & p & E).
  destruct (raster_shape_and_origin example_world s p E)
    as (r & box & sq & Hw & _ & _ & _ & Hh & Hwd & _ & _ & _ & Ereg & _
        & Ow & On).
  exists s, p, r. rewrite Ereg. cbn [pad_region r_west r_north]. auto 10.
Defined.
(** ** Failures *)

(** A grid with a cell and without any finite cell does not get
    through the pole reduction. *)
Lemma all_nan_grid_not_reduced
    (kernel : list (list Q) -> Q -> Q -> nat -> nat -> Q)
    (g : Dataset) (a : ndarray2) (f : xrobj) (inc dec : pyval)
    (r : DataArray) (i j : nat) :
  find_var "total_field_anomaly" (ds_vars g) = Some a ->
  (forall i j c, at2 a i j = Some c -> c = None) ->
  at2 a i j = Some None ->
  result (fill g) = Ok f ->
  reduction_to_pole kernel f inc dec = Ok r ->
  False.
Proof.
  intros Hv Hall Hc. rewrite (fill_with_variable g a Hv), result_pair.
  intros H. injection H as <-.
  assert (Hmed : np_nanmedian (ravel a) = None).
  { unfold np_nanmedian. rewrite dropna_all_nan; [reflexivity |].
    intros c Hcin. apply In_at2 in Hcin. destruct Hcin as (i' & j' & Hc').
    apply (Hall i' j' c Hc'). }
  unfold reduction_to_pole, fillna. cbn [da_values]. rewrite Hmed.
  destruct (all_finite2 _) as [vs |] eqn:E; [| discriminate].
  apply all_finite2_eq in E.
  assert (E2 : at2 (fillna2 None a) i j = at2 (map (map Some) vs) i j)
    by (rewrite E; reflexivity).
  rewrite at2_fillna2, at2_map_map, Hc in E2.
  destruct (at2 vs i j); discriminate.
Qed.

(** The grid of a run has a node at row 0 and column 0. *)
Lemma grid_lines_first (start stop : Q) :
  100 <= stop - start ->
  exists x, nth_error (grid_lines start stop 1) 0 = Some x.
Proof.
  intros H. pose proof (grid_lines_at_least_101 start stop H) as Hl.
  destruct (grid_lines start stop 1) as [| x l]; [cbn in Hl; lia |].
  exists x. reflexivity.
Qed.

Lemma raise_or_ok {A} (o : outcome A) :
  (exists e, o = Raise e) \/ (exists a, o = Ok a).
Proof. destruct o as [a | e]; [right | left]; eauto. Qed.

(** C2: no failure is caught.  A run that raises has written no raster;
    a failure of the CSV read (file not found, malformed file) ends the
    run with that very exception; a failure of the web-service call ends
    the run with an exception; and when the spline has no value at any
    node, so that the interpolated grid is all NaN, the run ends with an
    exception too. *)
Theorem failures_halt_before_raster :
  forall (X : Externals),
    (forall e, result (script X) = Raise e ->
       rasters_written (log (script X)) = [])
    /\ (forall e, x_read_csv X csv_path ";" = Raise e ->
          result (script X) = Raise e
          /\ rasters_written (log (script X)) = [])
    /\ (forall e, service_answer X = Raise e ->
          (exists e', result (script X) = Raise e')
          /\ rasters_written (log (script X)) = [])
    /\ ((forall pts values c,
           x_spline X 500 (1 # 10000000000) pts values c = None) ->
        (exists e', result (script X) = Raise e')
        /\ rasters_written (log (script X)) = []).
Proof.
  intros X.
  assert (Hraise : forall e, result (script X) = Raise e ->
            rasters_written (log (script X)) = [])
    by (intros e; apply script_raise).
  repeat match goal with |- _ /\ _ => split end.
  - exact Hraise.
  - intros e He.
    assert (Hr : result (script X) = Raise e).
    { rewrite script_unfold, load_unfold, He. reflexivity. }
    split; [exact Hr | apply (Hraise e Hr)].
  - intros e He.
    assert (Hr : exists e', result (script X) = Raise e').
    { rewrite script_unfold, load_unfold, He.
      destruct (x_read_csv X csv_path ";"); eexists; reflexivity. }
    split; [exact Hr |]. destruct Hr as [e' Hr]. apply (Hraise e' Hr).
  - intros Hnan.
    assert (Hr : exists e', result (script X) = Raise e').
    { destruct (raise_or_ok (result (script X))) as [Hr | [[s p] Hok]];
        [exact Hr | exfalso].
      apply script_ok in Hok. destruct Hok as [C _].
      destruct C as (_ & _ & _ & _ & (box & Ebox & Ereg) & Eg & _ & Ef & Er
                     & _).
      destruct (get_region_ordered _ _ Ebox) as [Hwe Hsn].
      destruct (grid_lines_first (r_south (region p)) (r_north (region p)))
        as [n0 En0].
      { rewrite Ereg. unfold pad_region. cbn [r_south r_north]. lra. }
      destruct (grid_lines_first (r_west (region p)) (r_east (region p)))
        as [e0 Ee0].
      { rewrite Ereg. unfold pad_region. cbn [r_west r_east]. lra. }
      refine (all_nan_grid_not_reduced _ _ _ _ _ _ _ 0 0 _ _ _ Ef Er).
      - rewrite Eg. unfold grid. cbn [ds_vars find_var].
        rewrite String.eqb_refl. reflexivity.
      - intros i j c.
        rewrite (at2_table (fun e n => x_spline X 500 (1 # 10000000000)
                                         (coordinates p) (magField p) (e, n))).
        destruct (nth_error _ i); [| discriminate].
        destruct (nth_error _ j); [| discriminate].
        rewrite Hnan. intros H. injection H as <-. reflexivity.
      - rewrite (at2_table (fun e n => x_spline X 500 (1 # 10000000000)
                                         (coordinates p) (magField p) (e, n))).
        rewrite En0, Ee0, Hnan. reflexivity. }
    split; [exact Hr |]. destruct Hr as [e' Hr]. apply (Hraise e' Hr).
Qed.

Lemma failures_halt_before_raster_witness :
  (result (script example_world_no_file)
   = Raise (FileNotFoundError csv_path)
   /\ rasters_written (log (script example_world_no_file)) = [])
  /\ ((exists e, result (script example_world_offline) = Raise e)
      /\ rasters_written (log (script example_world_offline)) = [])
  /\ ((exists e, result (script example_world_all_nan) = Raise e)
      /\ rasters_written (log (script example_world_all_nan)) = []).
Proof.
  split; [| split].
  - apply (failures_halt_before_raster example_world_no_file). reflexivity.
  - apply (failures_halt_before_raster example_world_offline)
      with (e := ConnectionError).
    reflexivity.
  - apply (failures_halt_before_raster example_world_all_nan).
    intros pts values c. reflexivity.
Defined.

(** ** The service call comes first *)

Lemma rasters_written_In (l1 l2 : list event) (path : string) (r : Raster) :
  rasters_written (l1 ++ EvRasterWrite path r :: l2) <> [].
Proof.
  rewrite rasters_written_app. cbn [rasters_written].
  destruct (rasters_written l1); discriminate.
Qed.

(** Events without a raster write, at the head of a log, come before
    any raster write of that log. *)
Lemma prefix_before_raster_write (pre rest l1 l2 : list event)
    (path : string) (r : Raster) :
  existsb is_raster_write pre = false ->
  pre ++ rest = l1 ++ EvRasterWrite path r :: l2 ->
  exists l1', l1 = pre ++ l1'.
Proof.
  revert l1. induction pre as [| ev pre IH]; intros l1 Hpre Heq.
  - exists l1. reflexivity.
  - cbn [existsb] in Hpre. apply orb_false_iff in Hpre.
    destruct Hpre as [Hev Hpre].
    destruct l1 as [| ev' l1]; cbn [app] in Heq.
    + injection Heq as -> _. discriminate.
    + injection Heq as -> Heq. destruct (IH l1 Hpre Heq) as [l1' ->].
      exists l1'. reflexivity.
Qed.

(** C7: when the call to the geomagnetic service raises, or its answer
    lacks a field that the script reads, the run ends with an exception
    and writes no raster; and in any run, a raster write comes after
    the service call in the log, the call having given an answer with
    all the fields. *)
Theorem service_failure_aborts_before_raster :
  forall (X : Externals),
    ((exists e, service_answer X = Raise e)
     \/ (exists answer e, service_answer X = Ok answer
                          /\ read_field answer = Raise e) ->
     (exists e', result (script X) = Raise e')
     /\ rasters_written (log (script X)) = [])
    /\ (forall l1 path r l2,
          log (script X) = l1 ++ EvRasterWrite path r :: l2 ->
          existsb is_calculate l1 = true
          /\ existsb is_raster_write l1 = false
          /\ exists answer fields,
               service_answer X = Ok answer
               /\ read_field answer = Ok fields).
Proof.
  intros X. split.
  - intros Hfail.
    assert (Hr : exists e', result (script X) = Raise e').
    { rewrite script_unfold, load_unfold.
      destruct (x_read_csv X csv_path ";"); [| eexists; reflexivity].
      destruct Hfail as [[e ->] | (answer & e & -> & Hf)]; cbv zeta.
      - eexists. reflexivity.
      - rewrite Hf. eexists. reflexivity. }
    split; [exact Hr |]. destruct Hr as [e' Hr].
    apply (script_raise X e' Hr).
  - intros l1 path r l2 Hlog.
    assert (Hw : rasters_written (log (script X)) <> [])
      by (rewrite Hlog; apply rasters_written_In).
    destruct (raise_or_ok (result (script X))) as [[e Hr] | [[s p] Hok]];
      [exfalso; apply Hw, (script_raise X e Hr) |].
    destruct (script_ok X s p Hok) as [C Hone].
    destruct C as (_ & Hans & Hfield & _).
    assert (Hone1 : rasters_written l1 = []).
    { rewrite Hlog, rasters_written_app in Hone. cbn [rasters_written] in Hone.
      destruct (rasters_written l1) as [| x [| y t]]; [reflexivity | |];
        cbn in Hone; [| discriminate].
      destruct (rasters_written l2); discriminate. }
    assert (Hno : existsb is_raster_write l1 = false).
    { clear -Hone1. induction l1 as [| ev l1 IH]; [reflexivity |].
      destruct ev; cbn in *; try discriminate; apply IH, Hone1. }
    split; [| split; [exact Hno | eauto]].
    revert Hlog. rewrite script_unfold, load_unfold.
    unfold service_answer in Hans. unfold service_answer.
    destruct (x_read_csv X csv_path ";") as [df | e];
      [| rewrite log_pair; intros Hl;
         destruct l1 as [| ? [| ? ?]]; discriminate].
    cbv zeta. rewrite Hans, Hfield. rewrite result_pair. cbn [data
      inclinationSite declinationSite].
    destruct (result (post_process X df _ _)); rewrite !log_pair;
      intros Hl;
      (apply prefix_before_raster_write in Hl; [| reflexivity]);
      destruct Hl as [l1' ->]; reflexivity.
Qed.

Lemma service_failure_aborts_before_raster_witness :
  ((exists e', result (script example_world_offline) = Raise e')
   /\ rasters_written (log (script example_world_offline)) = [])
  /\ (exists l1 path r l2,
        log (script example_world) = l1 ++ EvRasterWrite path r :: l2
        /\ existsb is_calculate l1 = true).
Proof.
  split.
  - apply (service_failure_aborts_before_raster example_world_offline).
    left. exists ConnectionError. reflexivity.
  - destruct example_run_ends_normally as (s & p & E).
    destruct (script_ok _ _ _ E) as [_ Hone].
    assert (Hsplit : exists l1 l2,
              log (script example_world)
              = l1 ++ EvRasterWrite tif_path
                        (raster_of (region p) (reducedMag p)) :: l2).
    { revert Hone. generalize (log (script example_world)).
      induction l as [| ev l IH]; [discriminate |].
      destruct ev; cbn [rasters_written]; intros H;
        try (destruct (IH H) as (l1 & l2 & ->);
             eexists (_ :: l1), l2; reflexivity).
      injection H as -> -> _. exists [], l. reflexivity. }
    destruct Hsplit as (l1 & l2 & Hl).
    exists l1, tif_path, (raster_of (region p) (reducedMag p)), l2.
    split; [exact Hl |].
    destruct (service_failure_aborts_before_raster example_world)
      as [_ Horder].
    apply (Horder _ _ _ _ Hl).
Defined.

(** ** The total intensity is only printed *)

Lemma lookup_update (key k : string) (f : pyval -> pyval)
    (d : list (string * pyval)) :
  lookup k (update key f d)
  = if String.eqb k key then option_map f (lookup k d) else lookup k d.
Proof.
  induction d as [| [k0 v] d IH]; cbn [update lookup].
  - destruct (String.eqb k key); reflexivity.
  - destruct (String.eqb k0 key) eqn:E0; cbn [lookup].
    + apply String.eqb_eq in E0. subst k0.
      destruct (String.eqb key k) eqn:E1.
      * apply String.eqb_eq in E1. subst k. rewrite String.eqb_refl.
        reflexivity.
      * rewrite String.eqb_sym, E1. reflexivity.
    + destruct (String.eqb k0 k) eqn:E1.
      * apply String.eqb_eq in E1. subst k0. rewrite E0. reflexivity.
      * exact IH.
Qed.

Lemma getitem_update_item (key k : string) (f : pyval -> pyval) (v : pyval) :
  getitem (update_item key f v) k
  = if String.eqb k key then outcome_map f (getitem v k) else getitem v k.
Proof.
  destruct v as [q | str | d]; cbn [update_item getitem].
  - destruct (String.eqb k key); reflexivity.
  - destruct (String.eqb k key); reflexivity.
  - rewrite lookup_update.
    destruct (String.eqb k key); destruct (lookup k d); reflexivity.
Qed.

(** Replacing the total intensity in the answer changes the third value
    that the script reads, and nothing else. *)
Lemma read_field_set_total_intensity (t answer : pyval) :
  read_field (set_total_intensity t answer)
  = outcome_map (fun idt => (fst (fst idt), snd (fst idt), t))
                (read_field answer).
Proof.
  unfold read_field, set_total_intensity, getitem2.
  rewrite getitem_update_item. cbn [String.eqb Ascii.eqb Bool.eqb].
  destruct (getitem answer "field-value") as [fc | e]; cbn [outcome_map];
    [| reflexivity].
  rewrite !getitem_update_item. cbn [String.eqb Ascii.eqb Bool.eqb].
  destruct (getitem fc "inclination") as [vi | e]; [| reflexivity].
  destruct (getitem vi "value") as [i | e]; [| reflexivity].
  destruct (getitem fc "declination") as [vd | e]; [| reflexivity].
  destruct (getitem vd "value") as [d | e]; [| reflexivity].
  destruct (getitem fc "total-intensity") as [vt | e]; cbn [outcome_map];
    [| reflexivity].
  rewrite getitem_update_item. cbn [String.eqb Ascii.eqb Bool.eqb].
  destruct (getitem vt "value"); reflexivity.
Qed.

Lemma decimate_ok (df : DataFrame) (out : list (Q * Q) * list cell) :
  decimate df = Ok out ->
  exists xs ys b pts,
    column df " X_BD72_m" = Ok xs
    /\ column df " Y_BD72_m" = Ok ys
    /\ column df Inputs.fieldCompute = Ok b
    /\ points xs ys = Ok pts
    /\ BlockReduce_filter spacingBlock pts (series_sub b 48925) = Ok out.
Proof.
  unfold decimate.
  destruct (column df " X_BD72_m") as [xs | e]; [| discriminate].
  destruct (column df " Y_BD72_m") as [ys | e]; [| discriminate].
  destruct (column df Inputs.fieldCompute) as [b | e]; [| discriminate].
  destruct (points xs ys) as [pts | e] eqn:Ep; [| discriminate].
  destruct (check_fit_input _ _); [| discriminate].
  intros H. exists xs, ys, b, pts.
  repeat match goal with |- _ /\ _ => split end;
    reflexivity || assumption.
Qed.

(** C9: a run in which the service answers with another total intensity,
    and nothing else differs, writes the same raster (array and
    transform) and, when it ends normally, binds the same products: the
    total intensity goes to the printed message only.  The anomaly
    handed to the block reduction is the field column minus the
    constant 48925. *)
Theorem total_intensity_only_printed :
  forall (X : Externals) (t : pyval),
    rasters_written (log (script (with_total_intensity t X)))
    = rasters_written (log (script X))
    /\ products (result (script (with_total_intensity t X)))
       = products (result (script X))
    /\ (forall s p, result (script (with_total_intensity t X)) = Ok (s, p) ->
          totalIntensity s = t)
    /\ (forall s p, result (script X) = Ok (s, p) ->
          exists xs ys b pts,
            column (data s) " X_BD72_m" = Ok xs
            /\ column (data s) " Y_BD72_m" = Ok ys
            /\ column (data s) Inputs.fieldCompute = Ok b
            /\ points xs ys = Ok pts
            /\ BlockReduce_filter spacingBlock pts
                 (map (option_map (fun v => v - 48925)) b)
               = Ok (coordinates p, magField p)).
Proof.
  intros X t.
  assert (Hans : service_answer (with_total_intensity t X)
                 = outcome_map (set_total_intensity t) (service_answer X)).
  { unfold service_answer, with_total_intensity. cbn [x_calculate].
    destruct (x_calculate X _ _ _ _ _); reflexivity. }
  assert (Hpp : forall df i d,
            post_process (with_total_intensity t X) df i d
            = post_process X df i d) by reflexivity.
  assert (Hboth :
    rasters_written (log (script (with_total_intensity t X)))
    = rasters_written (log (script X))
    /\ products (result (script (with_total_intensity t X)))
       = products (result (script X))
    /\ (forall s p, result (script (with_total_intensity t X)) = Ok (s, p) ->
          totalIntensity s = t)).
  { rewrite !script_unfold, !load_unfold, Hans.
    change (x_read_csv (with_total_intensity t X)) with (x_read_csv X).
    destruct (x_read_csv X csv_path ";") as [df | e];
      [| repeat split; discriminate].
    cbv zeta.
    destruct (service_answer X) as [answer | e]; cbn [outcome_map];
      [| repeat split; discriminate].
    rewrite read_field_set_total_intensity.
    destruct (read_field answer) as [[[i d] t0] | e]; cbn [outcome_map fst snd];
      [| repeat split; discriminate].
    rewrite !result_pair.
    cbn [data inclinationSite declinationSite].
    rewrite Hpp.
    destruct (result (post_process X df i d)) as [p | e];
      rewrite !log_pair, !result_pair, !rasters_written_app;
      cbn [rasters_written app products snd].
    - repeat split. intros s p' H. injection H as <- _. reflexivity.
    - repeat split. discriminate. }
  destruct Hboth as (H1 & H2 & H3).
  repeat match goal with |- _ /\ _ => split end; try assumption.
  intros s p Hok. apply script_ok in Hok. destruct Hok as [C _].
  destruct C as (_ & _ & _ & Hd & _).
  apply decimate_ok in Hd. exact Hd.
Qed.

Lemma total_intensity_only_printed_witness :
  rasters_written (log (script (with_total_intensity (PyNum 50000)
                                                     example_world)))
  = rasters_written (log (script example_world))
  /\ exists s p,
       result (script example_world) = Ok (s, p)
       /\ exists xs ys b pts,
            column (data s) " X_BD72_m" = Ok xs
            /\ column (data s) " Y_BD72_m" = Ok ys
            /\ column (data s) Inputs.fieldCompute = Ok b
            /\ points xs ys = Ok pts
            /\ BlockReduce_filter spacingBlock pts
                 (map (option_map (fun v => v - 48925)) b)
               = Ok (coordinates p, magField p).
Proof.
  destruct (total_intensity_only_printed example_world (PyNum 50000))
    as (H1 & _ & _ & H4).
  split; [exact H1 |].
  destruct example_run_ends_normally as (s & p & E).
  exists s, p. split; [exact E |]. apply (H4 s p E).
Defined.

(** * Further properties of the script *)

(** ** Failures of the loading section *)

(** X1: When the CSV file cannot be read, the run ends with that exception
    and has done nothing else: the geomagnetic service is not called
    and nothing is printed. *)
Theorem read_failure_skips_service :
  forall (X : Externals) (e : exn),
    x_read_csv X csv_path ";" = Raise e ->
    script X = ([EvReadCsv csv_path ";"], Raise e).
Proof.
  intros X e He. rewrite script_unfold, load_unfold, He.
  rewrite result_pair, log_pair. reflexivity.
Qed.

Lemma read_failure_skips_service_witness :
  script example_world_no_file
  = ([EvReadCsv csv_path ";"], Raise (FileNotFoundError csv_path))
  /\ existsb is_calculate (log (script example_world_no_file)) = false.
Proof.
  assert (H : script example_world_no_file
              = ([EvReadCsv csv_path ";"], Raise (FileNotFoundError csv_path)))
    by (apply read_failure_skips_service; reflexivity).
  split; [exact H | rewrite H; reflexivity].
Defined.

Lemma script_after_call_failure (X : Externals) (df : DataFrame) (e : exn) :
  x_read_csv X csv_path ";" = Ok df ->
  (service_answer X = Raise e
   \/ exists answer, service_answer X = Ok answer
                     /\ read_field answer = Raise e) ->
  script X = ([EvReadCsv csv_path ";"; service_call], Raise e).
Proof.
  intros Hdf Hfail. rewrite script_unfold, load_unfold, Hdf. cbv zeta.
  destruct Hfail as [-> | (answer & -> & ->)];
    rewrite result_pair, log_pair; reflexivity.
Qed.

(** X2: When the file is read and the service raises, or its answer lacks
    one of the fields that the script reads, the run ends with exactly
    that exception right after the call: nothing is printed, plotted or
    written. *)
Theorem service_failure_is_the_exception :
  forall (X : Externals) (df : DataFrame) (e : exn),
    x_read_csv X csv_path ";" = Ok df ->
    (service_answer X = Raise e
     \/ exists answer, service_answer X = Ok answer
                       /\ read_field answer = Raise e) ->
    script X = ([EvReadCsv csv_path ";"; service_call], Raise e)
    /\ existsb is_raster_write (log (script X)) = false.
Proof.
  intros X df e Hdf Hfail.
  rewrite (script_after_call_failure X df e Hdf Hfail).
  split; reflexivity.
Qed.

Lemma service_failure_is_the_exception_witness :
  script example_world_offline
  = ([EvReadCsv csv_path ";"; service_call], Raise ConnectionError)
  /\ existsb is_raster_write (log (script example_world_offline)) = false.
Proof.
  apply (service_failure_is_the_exception example_world_offline example_csv).
  - reflexivity.
  - left. reflexivity.
Defined.

(** X3: The total intensity is only printed, yet the script reads it from
    the answer before anything else is done: an answer that has the
    inclination and the declination but no total intensity ends the
    run with a KeyError for it. *)
Theorem missing_total_intensity_is_fatal :
  forall (X : Externals) (df : DataFrame) (answer : pyval)
         (fieldCalc : list (string * pyval)) (i d : pyval),
    x_read_csv X csv_path ";" = Ok df ->
    service_answer X = Ok answer ->
    getitem answer "field-value" = Ok (PyDict fieldCalc) ->
    getitem2 (PyDict fieldCalc) "inclination" "value" = Ok i ->
    getitem2 (PyDict fieldCalc) "declination" "value" = Ok d ->
    lookup "total-intensity" fieldCalc = None ->
    script X = ([EvReadCsv csv_path ";"; service_call],
                Raise (KeyError "total-intensity")).
Proof.
  intros X df answer fc i d Hdf Hans Hfc Hi Hd Ht.
  apply (script_after_call_failure X df _ Hdf).
  right. exists answer. split; [exact Hans |].
  unfold read_field. rewrite Hfc, Hi, Hd.
  unfold getitem2, getitem. rewrite Ht. reflexivity.
Qed.

Lemma missing_total_intensity_is_fatal_witness :
  script example_world_without_intensity
  = ([EvReadCsv csv_path ";"; service_call],
     Raise (KeyError "total-intensity")).
Proof.
  eapply (missing_total_intensity_is_fatal example_world_without_intensity);
    reflexivity.
Defined.

(** ** Missing columns *)

Lemma column_missing (df : DataFrame) (name : string) :
  ~ In name (map fst df) -> column df name = Raise (KeyError name).
Proof.
  induction df as [| [k c] df IH]; cbn; [reflexivity |].
  intros H. destruct (String.eqb k name) eqn:E.
  - apply String.eqb_eq in E. exfalso. apply H. left. exact E.
  - apply IH. intros Hin. apply H. right. exact Hin.
Qed.

Lemma column_present (df : DataFrame) (name : string) :
  In name (map fst df) -> exists c, column df name = Ok c.
Proof.
  induction df as [| [k c] df IH]; cbn; [contradiction |].
  intros [-> | H].
  - rewrite String.eqb_refl. eauto.
  - destruct (String.eqb k name); [eauto | apply IH, H].
Qed.

Lemma post_process_decimate_raise (X : Externals) (df : DataFrame)
    (i d : pyval) (e : exn) :
  decimate df = Raise e -> post_process X df i d = ([], Raise e).
Proof.
  intros H. unfold post_process. rewrite H, bind_lift_raise. reflexivity.
Qed.

(** The first of the three columns that the file lacks, in the order
    in which line 98 reads them. *)
Lemma decimate_missing_column (df : DataFrame) (name : string) :
  (name = " X_BD72_m"
   \/ (name = " Y_BD72_m" /\ In " X_BD72_m" (map fst df))
   \/ (name = Inputs.fieldCompute /\ In " X_BD72_m" (map fst df)
       /\ In " Y_BD72_m" (map fst df))) ->
  ~ In name (map fst df) ->
  decimate df = Raise (KeyError name).
Proof.
  intros Hname Hmiss. apply column_missing in Hmiss. unfold decimate.
  destruct Hname as [-> | [[-> Hx] | (-> & Hx & Hy)]].
  - rewrite Hmiss. reflexivity.
  - destruct (column_present _ _ Hx) as [xs ->]. rewrite Hmiss. reflexivity.
  - destruct (column_present _ _ Hx) as [xs ->].
    destruct (column_present _ _ Hy) as [ys ->].
    rewrite Hmiss. reflexivity.
Qed.

(** X4: A file that lacks one of the columns [" X_BD72_m"], [" Y_BD72_m"]
    and [" B1Tot"] (each name with its leading blank) ends the run with
    a KeyError for the first one missing, after the service has been
    called and the two messages of the loading section printed; no
    figure is shown and no raster written. *)
Theorem missing_column_is_key_error :
  forall (X : Externals) (df : DataFrame) (answer i d t : pyval)
         (name : string),
    x_read_csv X csv_path ";" = Ok df ->
    service_answer X = Ok answer ->
    read_field answer = Ok (i, d, t) ->
    (name = " X_BD72_m"
     \/ (name = " Y_BD72_m" /\ In " X_BD72_m" (map fst df))
     \/ (name = " B1Tot" /\ In " X_BD72_m" (map fst df)
         /\ In " Y_BD72_m" (map fst df))) ->
    ~ In name (map fst df) ->
    script X
    = ([EvReadCsv csv_path ";"; service_call; EvPrint (MsgField t i d);
        EvPrint (MsgHead (head df))],
       Raise (KeyError name)).
Proof.
  intros X df answer i d t name Hdf Hans Hf Hname Hmiss.
  rewrite script_unfold, load_unfold, Hdf. cbv zeta. rewrite Hans, Hf.
  rewrite result_pair, log_pair.
  cbn [data inclinationSite declinationSite].
  rewrite (post_process_decimate_raise X df i d (KeyError name)
             (decimate_missing_column df name Hname Hmiss)).
  rewrite result_pair, log_pair. reflexivity.
Qed.

Lemma missing_column_is_key_error_witness :
  script example_world_without_field
  = ([EvReadCsv csv_path ";"; service_call;
      EvPrint (MsgField (PyNum 48925) (PyNum 65.8927) (PyNum 2.1025));
      EvPrint (MsgHead (head example_csv_without_field))],
     Raise (KeyError " B1Tot")).
Proof.
  apply (missing_column_is_key_error example_world_without_field
           example_csv_without_field (example_answer 48925)).
  - reflexivity.
  - reflexivity.
  - reflexivity.
  - right. right. split; [reflexivity |].
    split; [left; reflexivity | right; left; reflexivity].
  - intros [H | [H | [H | []]]]; discriminate.
Defined.

(** ** The region of the grid *)

(** X5: The region of the grid holds every decimated point with a margin of
    50 on each side, so each of its sides is at least 100 long. *)
Theorem region_pads_points_by_50 :
  forall (X : Externals) (s : Site) (p : Products),
    result (script X) = Ok (s, p) ->
    (forall e n, In (e, n) (coordinates p) ->
       r_west (region p) + 50 <= e /\ e <= r_east (region p) - 50
       /\ r_south (region p) + 50 <= n /\ n <= r_north (region p) - 50)
    /\ 100 <= r_east (region p) - r_west (region p)
    /\ 100 <= r_north (region p) - r_south (region p).
Proof.
  intros X s p H. apply script_ok in H. destruct H as [C _].
  destruct C as (_ & _ & _ & _ & (box & Ebox & ->) & _).
  unfold pad_region. cbn [r_west r_east r_south r_north].
  destruct (get_region_ordered _ _ Ebox) as [Hwe Hsn].
  split; [| split; lra].
  intros e n Hin.
  destruct (get_region_bounds _ _ Ebox e n Hin) as (A & B & C & D).
  repeat split; lra.
Qed.

Lemma region_pads_points_by_50_witness :
  exists s p,
    result (script example_world) = Ok (s, p)
    /\ 100 <= r_east (region p) - r_west (region p)
    /\ 100 <= r_north (region p) - r_south (region p).
Proof.
  destruct example_run_ends_normally as (s & p & E).
  exists s, p. split; [exact E |].
  apply (region_pads_points_by_50 example_world s p E).
Defined.

(** ** The size of the grid *)

(** The grids of a run that ends normally: their node lines, the shape
    of the array that is flipped into the raster, and its cells. *)
Lemma run_grid_facts (X : Externals) (s : Site) (p : Products) :
  result (script X) = Ok (s, p) ->
  exists (squeezed : ndarray2) (vs : list (list Q)) (iq dq : Q),
    ds_coords0 (gridReduced p)
    = grid_lines (r_south (region p)) (r_north (region p)) 1
    /\ ds_coords1 (gridReduced p)
       = grid_lines (r_west (region p)) (r_east (region p)) 1
    /\ reducedMag p = flipud squeezed
    /\ length squeezed = length (ds_coords0 (gridReduced p))
    /\ rows_of_width (length (ds_coords1 (gridReduced p))) squeezed
    /\ (forall i j, at2 squeezed i j = anomaly_at (gridReduced p) i j)
    /\ (forall i j,
          anomaly_at (gridReduced p) i j =
          match nth_error (ds_coords0 (gridReduced p)) i,
                nth_error (ds_coords1 (gridReduced p)) j with
          | Some n, Some e =>
              Some (if within (coordinates p) 20 (e, n)
                    then Some (x_rtp_kernel X vs iq dq i j)
                    else None)
          | _, _ => None
          end).
Proof.
  intros H. apply script_ok in H. destruct H as [C _].
  destruct C as (_ & _ & _ & _ & _ & Eg & _ & Ef & Er & Egr
                 & (sq & Esq & Emag) & _).
  destruct (pole_reduced_on_same_grid _ _ _ _ _ _ Ef Er)
    as (Ec0 & Ec1 & vs & iq & dq & Hcell).
  assert (Hc0 : ds_coords0 (grid_full p)
                = grid_lines (r_south (region p)) (r_north (region p)) 1)
    by (rewrite Eg; reflexivity).
  assert (Hc1 : ds_coords1 (grid_full p)
                = grid_lines (r_west (region p)) (r_east (region p)) 1)
    by (rewrite Eg; reflexivity).
  assert (Ha : find_var "total_field_anomaly" (ds_vars (grid_full p))
               = Some (map (fun n =>
                         map (fun e =>
                           x_spline X 500 (1 # 10000000000) (coordinates p)
                                    (magField p) (e, n))
                             (ds_coords1 (grid_full p)))
                         (ds_coords0 (grid_full p)))).
  { rewrite Eg at 1. unfold grid. cbn [ds_vars find_var].
    rewrite String.eqb_refl. rewrite Eg. reflexivity. }
  destruct (pole_reduced_shape _ _ _ _ _ _ _ (length (ds_coords1 (grid_full p)))
              Ha (rows_of_width_table _ _ _) Ef Er) as [Hlen Hrows].
  rewrite length_map in Hlen.
  assert (Hgc : ds_coords0 (gridReduced p) = ds_coords0 (grid_full p)
                /\ ds_coords1 (gridReduced p) = ds_coords1 (grid_full p)).
  { rewrite Egr. unfold distance_mask, to_dataset.
    cbn [ds_coords0 ds_coords1]. auto. }
  destruct Hgc as [Hg0 Hg1].
  assert (Esq' : sq = where2 (da_values (rtp_grid p))
                        (mask_of (coordinates p) 20 (ds_coords0 (grid_full p))
                                 (ds_coords1 (grid_full p)))
                 /\ find_var "total_field_anomaly" (ds_vars (gridReduced p))
                    = Some sq).
  { rewrite Egr in Esq |- *.
    unfold distance_mask, to_dataset, to_array_values in Esq |- *.
    cbn [ds_vars ds_coords0 ds_coords1 map fst snd find_var] in Esq |- *.
    rewrite String.eqb_refl.
    rewrite Ec0, Ec1 in Esq |- *. unfold squeeze2 in Esq.
    destruct (_ || _)%bool in Esq; [discriminate |].
    injection Esq as <-. split; reflexivity. }
  destruct Esq' as [Esq' Hvar].
  exists sq, vs, iq, dq. rewrite Hg0, Hg1.
  repeat match goal with |- _ /\ _ => split end; try assumption.
  - rewrite Esq', length_where2, Hlen. unfold mask_of. rewrite length_map.
    apply Nat.min_id.
  - rewrite Esq'. apply rows_of_width_where2; [exact Hrows |].
    unfold mask_of.
    apply (rows_of_width_table (fun e n => within (coordinates p) 20 (e, n))).
  - intros i j. unfold anomaly_at. rewrite Hvar. reflexivity.
  - intros i j. rewrite Egr, anomaly_at_distance_mask.
    unfold masked_by_distance, anomaly_at, to_dataset.
    cbn [ds_vars ds_coords0 ds_coords1 find_var].
    rewrite String.eqb_refl, Ec0, Ec1, Hcell.
    assert (Hgrid : anomaly_at (grid_full p) i j =
              match nth_error (ds_coords0 (grid_full p)) i,
                    nth_error (ds_coords1 (grid_full p)) j with
              | Some n, Some e =>
                  Some (x_spline X 500 (1 # 10000000000) (coordinates p)
                                 (magField p) (e, n))
              | _, _ => None
              end).
    { unfold anomaly_at. rewrite Ha.
      apply (at2_table (fun e n => x_spline X 500 (1 # 10000000000)
                                     (coordinates p) (magField p) (e, n))). }
    rewrite Hgrid.
    destruct (nth_error (ds_coords0 (grid_full p)) i) as [n |];
      [| reflexivity].
    destruct (nth_error (ds_coords1 (grid_full p)) j) as [e |];
      [| reflexivity].
    cbn [option_map]. destruct (within (coordinates p) 20 (e, n)); reflexivity.
Qed.

Lemma shape1_rows_of_width {A} (w : nat) (a : list (list A)) :
  rows_of_width w a -> a <> [] ->
  match a with [] => 0%nat | r :: _ => length r end = w.
Proof.
  intros H Hne. destruct a as [| r a]; [contradiction |].
  inversion H; assumption.
Qed.

(** The shape of the final array of a run that ends normally. *)
Lemma run_shape (X : Externals) (s : Site) (p : Products) :
  result (script X) = Ok (s, p) ->
  shape0 (reducedMag p) = length (ds_coords0 (gridReduced p))
  /\ shape1 (reducedMag p) = length (ds_coords1 (gridReduced p))
  /\ (101 <= length (ds_coords0 (gridReduced p)))%nat
  /\ (101 <= length (ds_coords1 (gridReduced p)))%nat.
Proof.
  intros H.
  destruct (run_grid_facts X s p H)
    as (sq & vs & iq & dq & E0 & E1 & Emag & Hlen & Hrows & _).
  assert (Hspan : 100 <= r_east (region p) - r_west (region p)
                  /\ 100 <= r_north (region p) - r_south (region p)).
  { apply script_ok in H. destruct H as [C _].
    destruct C as (_ & _ & _ & _ & (box & Ebox & ->) & _).
    unfold pad_region. cbn [r_west r_east r_south r_north].
    destruct (get_region_ordered _ _ Ebox) as [Hwe Hsn]. split; lra. }
  destruct Hspan as [Hwe Hsn].
  assert (H0 : (101 <= length (ds_coords0 (gridReduced p)))%nat)
    by (rewrite E0; apply grid_lines_at_least_101, Hsn).
  assert (H1 : (101 <= length (ds_coords1 (gridReduced p)))%nat)
    by (rewrite E1; apply grid_lines_at_least_101, Hwe).
  assert (Hs0 : shape0 (reducedMag p) = length (ds_coords0 (gridReduced p))).
  { rewrite Emag. unfold shape0, flipud. rewrite length_rev. exact Hlen. }
  repeat match goal with |- _ /\ _ => split end; try assumption.
  unfold shape1. apply shape1_rows_of_width.
  - rewrite Emag. apply rows_of_width_rev, Hrows.
  - intros Hnil. unfold shape0 in Hs0. rewrite Hnil in Hs0. cbn in Hs0. lia.
Qed.

(** X6: Whatever the data, the raster of a run that ends normally has at
    least 101 rows and 101 columns (50 of padding on each side of the
    points, at spacing 1), and its width is the number of easting lines
    of the grid, its height the number of northing lines. *)
Theorem raster_at_least_101_by_101 :
  forall (X : Externals) (s : Site) (p : Products),
    result (script X) = Ok (s, p) ->
    exists r,
      rasters_written (log (script X)) = [(tif_path, r)]
      /\ ra_height r = length (ds_coords0 (gridReduced p))
      /\ ra_width r = length (ds_coords1 (gridReduced p))
      /\ (101 <= ra_height r)%nat
      /\ (101 <= ra_width r)%nat.
Proof.
  intros X s p H.
  destruct (run_shape X s p H) as (S0 & S1 & L0 & L1).
  destruct (script_ok X s p H) as [_ Hw].
  exists (raster_of (region p) (reducedMag p)).
  cbn [raster_of ra_height ra_width]. rewrite S0, S1. auto.
Qed.

Lemma raster_at_least_101_by_101_witness :
  exists s p r,
    result (script example_world) = Ok (s, p)
    /\ rasters_written (log (script example_world)) = [(tif_path, r)]
    /\ (101 <= ra_height r)%nat
    /\ (101 <= ra_width r)%nat.
Proof.
  destruct example_run_ends_normally as (s & p & E).
  destruct (raster_at_least_101_by_101 example_world s p E)
    as (r & Hw & _ & _ & Hh & Hwd).
  exists s, p, r. auto.
Defined.

(** ** The transform of the raster *)

Lemma Qnat_pos (n : nat) : (0 < n)%nat -> 0 < Qnat n.
Proof.
  intros H. unfold Qnat. change 0 with (inject_Z 0).
  rewrite <- Zlt_Qlt. lia.
Qed.

Lemma from_bounds_pixel (west south east north : Q) (width height : nat) :
  af_a (from_bounds west south east north width height)
  == (east - west) / Qnat width
  /\ af_e (from_bounds west south east north width height)
     == (south - north) / Qnat height
  /\ af_b (from_bounds west south east north width height) == 0
  /\ af_d (from_bounds west south east north width height) == 0.
Proof.
  unfold from_bounds, affine_mul, translation, scale.
  cbn [af_a af_b af_c af_d af_e af_f]. repeat split; ring.
Qed.

(** X7: The transform of the raster of a run that ends normally is
    north-up: it has no rotation, a positive pixel width and a negative
    pixel height, so that columns run from west to east and rows from
    north to south, the order in which the flipped array holds them. *)
Theorem raster_transform_is_north_up :
  forall (X : Externals) (s : Site) (p : Products),
    result (script X) = Ok (s, p) ->
    exists r,
      rasters_written (log (script X)) = [(tif_path, r)]
      /\ af_b (ra_transform r) == 0
      /\ af_d (ra_transform r) == 0
      /\ 0 < af_a (ra_transform r)
      /\ af_e (ra_transform r) < 0.
Proof.
  intros X s p H.
  destruct (run_shape X s p H) as (S0 & S1 & L0 & L1).
  destruct (script_ok X s p H) as [C Hw].
  destruct C as (_ & _ & _ & _ & (box & Ebox & Ereg) & _).
  destruct (get_region_ordered _ _ Ebox) as [Hwe Hsn].
  exists (raster_of (region p) (reducedMag p)).
  cbn [raster_of ra_height ra_width ra_transform region_nth].
  assert (Hw0 : (0 < shape1 (reducedMag p))%nat) by lia.
  assert (Hh0 : (0 < shape0 (reducedMag p))%nat) by lia.
  destruct (from_bounds_pixel (r_west (region p)) (r_south (region p))
              (r_east (region p)) (r_north (region p))
              (shape1 (reducedMag p)) (shape0 (reducedMag p)))
    as (Pa & Pe & Pb & Pd).
  repeat match goal with |- _ /\ _ => split end; try assumption.
  - rewrite Pa. apply Qlt_shift_div_l; [apply Qnat_pos, Hw0 |].
    rewrite Ereg. unfold pad_region. cbn [r_west r_east]. lra.
  - rewrite Pe. apply Qlt_shift_div_r; [apply Qnat_pos, Hh0 |].
    rewrite Ereg. unfold pad_region. cbn [r_south r_north]. lra.
Qed.

Lemma raster_transform_is_north_up_witness :
  exists s p r,
    result (script example_world) = Ok (s, p)
    /\ rasters_written (log (script example_world)) = [(tif_path, r)]
    /\ af_b (ra_transform r) == 0
    /\ af_d (ra_transform r) == 0
    /\ 0 < af_a (ra_transform r)
    /\ af_e (ra_transform r) < 0.
Proof.
  destruct example_run_ends_normally as (s & p & E).
  destruct (raster_transform_is_north_up example_world s p E)
    as (r & Hw & Hb & Hd & Ha & He).
  exists s, p, r. auto 10.
Defined.
(** ** The rows of the raster *)

Lemma linspace_ends (start stop : Q) (num : nat) :
  (2 <= num)%nat ->
  exists first last,
    nth_error (linspace start stop num) 0 = Some first
    /\ first == start
    /\ nth_error (linspace start stop num) (num - 1) = Some last
    /\ last == stop.
Proof.
  intros H. destruct num as [| [| k]]; [lia | lia |].
  unfold linspace.
  set (f := fun i : nat =>
              start + inject_Z (Z.of_nat i)
                      * ((stop - start) / inject_Z (Z.of_nat (S (S k) - 1)))).
  exists (f 0%nat), (f (S (S k) - 1)%nat).
  assert (Hpos : 0 < inject_Z (Z.of_nat (S (S k) - 1))).
  { change 0 with (inject_Z 0). rewrite <- Zlt_Qlt. lia. }
  repeat split.
  - unfold f. change (inject_Z (Z.of_nat 0)) with 0. ring.
  - rewrite nth_error_map, nth_error_seq.
    destruct (Nat.ltb_spec (S (S k) - 1) (S (S k))) as [_ | Hge]; [| lia].
    reflexivity.
  - unfold f. field. intros H0. rewrite H0 in Hpos. discriminate.
Qed.

(** In a run that ends normally, row [k] of the final array is row
    [height - 1 - k] of the reduced grid. *)
Lemma run_band_cell (X : Externals) (s : Site) (p : Products) (k j : nat) :
  result (script X) = Ok (s, p) ->
  (k < shape0 (reducedMag p))%nat ->
  at2 (reducedMag p) k j
  = anomaly_at (gridReduced p) (shape0 (reducedMag p) - 1 - k) j.
Proof.
  intros H Hk.
  destruct (run_grid_facts X s p H)
    as (sq & vs & iq & dq & _ & _ & Emag & _ & _ & Hsq & _).
  rewrite <- Hsq. rewrite Emag in *. unfold shape0, flipud in *.
  rewrite length_rev in *. unfold at2 at 1. rewrite nth_error_rev.
  apply Nat.ltb_lt in Hk. rewrite Hk. unfold at2.
  replace (length sq - 1 - k)%nat with (length sq - S k)%nat by lia.
  reflexivity.
Qed.

(** X8: The flip turns the grid upside down: in the raster of a run that
    ends normally, row [k] holds the cells of the northing line
    [height - 1 - k] of the reduced grid; row 0 is the line on the north
    edge of the region, where the transform has its origin, and the last
    row is the line on the south edge. *)
Theorem raster_rows_run_north_to_south :
  forall (X : Externals) (s : Site) (p : Products),
    result (script X) = Ok (s, p) ->
    exists r,
      rasters_written (log (script X)) = [(tif_path, r)]
      /\ (forall k j, (k < ra_height r)%nat ->
            at2 (ra_band1 r) k j
            = anomaly_at (gridReduced p) (ra_height r - 1 - k) j)
      /\ (exists n,
            nth_error (ds_coords0 (gridReduced p)) (ra_height r - 1) = Some n
            /\ n == r_north (region p))
      /\ (exists n,
            nth_error (ds_coords0 (gridReduced p)) 0 = Some n
            /\ n == r_south (region p)).
Proof.
  intros X s p H.
  destruct (run_shape X s p H) as (S0 & S1 & L0 & L1).
  destruct (run_grid_facts X s p H)
    as (sq & vs & iq & dq & E0 & _).
  destruct (script_ok X s p H) as [_ Hw].
  exists (raster_of (region p) (reducedMag p)).
  cbn [raster_of ra_height ra_band1].
  split; [exact Hw |]. split.
  - intros k j Hk. apply (run_band_cell X s p k j H Hk).
  - rewrite S0. rewrite E0 in L0 |- *. unfold grid_lines in *.
    rewrite linspace_length in *.
    set (num := Z.to_nat _) in *.
    destruct (linspace_ends (r_south (region p)) (r_north (region p)) num)
      as (first & last & Hf & Ef & Hl & El); [lia |].
    split; [exists last | exists first]; auto.
Qed.

Lemma raster_rows_run_north_to_south_witness :
  exists s p r n,
    result (script example_world) = Ok (s, p)
    /\ rasters_written (log (script example_world)) = [(tif_path, r)]
    /\ nth_error (ds_coords0 (gridReduced p)) (ra_height r - 1) = Some n
    /\ n == r_north (region p).
Proof.
  destruct example_run_ends_normally as (s & p & E).
  destruct (raster_rows_run_north_to_south example_world s p E)
    as (r & Hw & _ & (n & Hn & En) & _).
  exists s, p, r, n. auto.
Defined.

(** The raster written by a run that ends normally has rows. *)
Lemma written_raster_has_rows (X : Externals) (s : Site) (p : Products) :
  result (script X) = Ok (s, p) ->
  (forall r, rasters_written (log (script X)) = [(tif_path, r)] ->
     (0 < ra_height r)%nat)
  /\ (0 < shape0 (reducedMag p))%nat.
Proof.
  intros H. destruct (run_shape X s p H) as (S0 & S1 & L0 & L1).
  destruct (script_ok X s p H) as [_ Hw].
  split; [| lia].
  intros r Hr. rewrite Hw in Hr. injection Hr as <-.
  cbn [raster_of ra_height]. lia.
Qed.

(** X9: In the raster of a run that ends normally a pixel is NaN exactly
    when its node is farther than 20 from every decimated point
    (distances compared through their squares); any other pixel holds a
    number. *)
Theorem raster_nodata_iff_far_from_data :
  forall (X : Externals) (s : Site) (p : Products),
    result (script X) = Ok (s, p) ->
    exists r,
      rasters_written (log (script X)) = [(tif_path, r)]
      /\ forall k j n e,
           (k < ra_height r)%nat ->
           nth_error (ds_coords0 (gridReduced p)) (ra_height r - 1 - k)
           = Some n ->
           nth_error (ds_coords1 (gridReduced p)) j = Some e ->
           (at2 (ra_band1 r) k j = Some None
            <-> forall pt, In pt (coordinates p) -> 20 * 20 < dist2 pt (e, n))
           /\ ((exists v, at2 (ra_band1 r) k j = Some (Some v))
               <-> exists pt, In pt (coordinates p)
                              /\ dist2 pt (e, n) <= 20 * 20).
Proof.
  intros X s p H.
  destruct (run_grid_facts X s p H)
    as (sq & vs & iq & dq & _ & _ & _ & _ & _ & _ & Hcell).
  destruct (script_ok X s p H) as [_ Hw].
  exists (raster_of (region p) (reducedMag p)).
  cbn [raster_of ra_height ra_band1].
  split; [exact Hw |].
  intros k j n e Hk Hn He.
  rewrite (run_band_cell X s p k j H Hk), Hcell, Hn, He.
  destruct (within (coordinates p) 20 (e, n)) eqn:W.
  - pose proof (proj1 (within_iff _ _ _) W) as (pt & Hpt & Hd).
    split; split.
    + discriminate.
    + intros Hfar. exfalso. apply (Qlt_not_le _ _ (Hfar pt Hpt)), Hd.
    + intros _. exists pt. auto.
    + intros _. eexists. reflexivity.
  - assert (Hfar : forall pt, In pt (coordinates p) ->
                     20 * 20 < dist2 pt (e, n)).
    { intros pt Hpt. apply Qnot_le_lt. intros Hd.
      assert (W' : within (coordinates p) 20 (e, n) = true)
        by (apply within_iff; exists pt; auto).
      congruence. }
    split; split.
    + intros _. exact Hfar.
    + reflexivity.
    + intros [v Hv]. discriminate.
    + intros (pt & Hpt & Hd). exfalso.
      apply (Qlt_not_le _ _ (Hfar pt Hpt)), Hd.
Qed.

Lemma raster_nodata_iff_far_from_data_witness :
  exists s p r,
    result (script example_world) = Ok (s, p)
    /\ rasters_written (log (script example_world)) = [(tif_path, r)]
    /\ forall n e,
         nth_error (ds_coords0 (gridReduced p)) (ra_height r - 1 - 0) = Some n ->
         nth_error (ds_coords1 (gridReduced p)) 0 = Some e ->
         (at2 (ra_band1 r) 0 0 = Some None
          <-> forall pt, In pt (coordinates p) -> 20 * 20 < dist2 pt (e, n)).
Proof.
  destruct example_run_ends_normally as (s & p & E).
  destruct (raster_nodata_iff_far_from_data example_world s p E)
    as (r & Hw & Hcell).
  destruct (written_raster_has_rows example_world s p E) as [Hh _].
  exists s, p, r. split; [exact E |]. split; [exact Hw |].
  intros n e Hn He.
  apply (Hcell 0%nat 0%nat n e); try assumption.
  apply (Hh r Hw).
Defined.

(** ** The effects of a run, in order *)

Lemma load_log_ok (X : Externals) (s : Site) :
  result (load X) = Ok s ->
  log (load X)
  = [EvReadCsv csv_path ";"; service_call;
     EvPrint (MsgField (totalIntensity s) (inclinationSite s)
                       (declinationSite s));
     EvPrint (MsgHead (head (data s)))].
Proof.
  rewrite load_unfold.
  destruct (x_read_csv X _ _) as [df | e]; [| discriminate].
  cbv zeta. destruct (service_answer X) as [ans | e]; [| discriminate].
  destruct (read_field ans) as [[[i d] t] | e]; [| discriminate].
  rewrite result_pair, log_pair. intros H. injection H as <-. reflexivity.
Qed.

(** The log of a post-processing section that ends normally, and what
    the same section does when the destination cannot be opened. *)
Lemma post_process_log (X : Externals) (df : DataFrame) (i d : pyval)
    (p : Products) (e : exn) :
  result (post_process X df i d) = Ok p ->
  exists b pre,
    column df Inputs.fieldCompute = Ok b
    /\ pre = [EvPrint (MsgOriginalSize (length b));
              EvPrint (MsgDecimatedSize (length (magField p)));
              EvFigure "5 m Block Reduced Dataset";
              EvFigure "Magnetic anomaly gridded with biharmonic spline";
              EvPrint MsgNans;
              EvFigure "Magnetic anomaly reduced to pole"]
    /\ log (post_process X df i d)
       = pre ++ [EvRasterWrite tif_path (raster_of (region p) (reducedMag p));
                 EvShow]
    /\ post_process (with_unwritable_destination e X) df i d
       = (pre, Raise e).
Proof.
  unfold post_process, print.
  cbn [x_spline x_rtp_kernel with_unwritable_destination].
  destruct (decimate df) as [[cs mf] | e1];
    [rewrite !bind_lift_ok | rewrite bind_lift_raise; discriminate].
  cbn [fst snd].
  destruct (column df Inputs.fieldCompute) as [size | e1];
    [rewrite !bind_lift_ok | rewrite bind_lift_raise; discriminate].
  rewrite !bind_emit, !log_pair, !result_pair.
  unfold spline_fit. cbn [x_spline with_unwritable_destination].
  destruct (existsb isnan mf);
    [rewrite bind_lift_raise; discriminate | rewrite !bind_lift_ok].
  destruct (get_region cs) as [box | e1];
    [rewrite !bind_lift_ok | rewrite bind_lift_raise; discriminate].
  rewrite !bind_emit, !log_pair, !result_pair.
  set (gf := grid _ _ _ _ _).
  rewrite !(fill_unfold gf).
  destruct (truth_value (ds_vars gf)).
  - destruct (getattr gf "total_field_anomaly") as [a | e1];
      [rewrite !bind_pair_ok | rewrite bind_pair_raise; discriminate].
    rewrite !log_pair, !result_pair.
    destruct (reduction_to_pole _ _ i d) as [rtp | e1];
      [rewrite !bind_lift_ok | rewrite bind_lift_raise; discriminate].
    rewrite !bind_emit, !log_pair, !result_pair, !save_unfold.
    cbn [x_raster_open with_unwritable_destination].
    destruct (squeeze2 _) as [sq | e1];
      [| rewrite bind_pair_raise; discriminate].
    destruct (x_raster_open X tif_path) as [e1 |];
      [rewrite bind_pair_raise; discriminate | rewrite bind_pair_ok].
    rewrite bind_pair_raise.
    rewrite ret_pair, !log_pair, !result_pair.
    intros H. injection H as <-. cbn [magField region reducedMag].
    exists size. eexists. split; [reflexivity |]. split; [reflexivity |].
    split; reflexivity.
  - rewrite !bind_pair_ok, !log_pair, !result_pair.
    cbn [reduction_to_pole]. rewrite bind_lift_raise. discriminate.
Qed.

(** X10: A run that ends normally has performed exactly these effects, in
    this order: the CSV read, one call of the service, the two messages
    of the loading section, the two sizes (the decimated one at most the
    original one), two figures, the NaN message, the third figure, one
    raster write, and the final blocking show.  The spline has been
    fitted, so no decimated value is NaN. *)
Theorem normal_run_effects :
  forall (X : Externals) (s : Site) (p : Products),
    result (script X) = Ok (s, p) ->
    exists b,
      column (data s) " B1Tot" = Ok b
      /\ log (script X)
         = [EvReadCsv csv_path ";"; service_call;
            EvPrint (MsgField (totalIntensity s) (inclinationSite s)
                              (declinationSite s));
            EvPrint (MsgHead (head (data s)));
            EvPrint (MsgOriginalSize (length b));
            EvPrint (MsgDecimatedSize (length (magField p)));
            EvFigure "5 m Block Reduced Dataset";
            EvFigure "Magnetic anomaly gridded with biharmonic spline";
            EvPrint MsgNans;
            EvFigure "Magnetic anomaly reduced to pole";
            EvRasterWrite tif_path (raster_of (region p) (reducedMag p));
            EvShow]
      /\ (length (magField p) <= length b)%nat
      /\ length (coordinates p) = length (magField p)
      /\ existsb isnan (magField p) = false.
Proof.
  intros X s p H.
  destruct (script_ok X s p H) as [C _].
  destruct C as (_ & _ & _ & Hdec & _ & _ & _ & _ & _ & _ & _ & _ & Hfit).
  revert H. rewrite script_unfold.
  destruct (result (load X)) as [s' | e] eqn:El;
    [| rewrite result_pair; discriminate].
  cbv zeta.
  destruct (result (post_process X _ _ _)) as [p' | e] eqn:Ep;
    rewrite result_pair, log_pair; [| discriminate].
  intros H. injection H as <- <-.
  destruct (post_process_log _ _ _ _ _ ParserError Ep)
    as (b & pre & Hb & -> & Hlog & _).
  exists b. rewrite (load_log_ok _ _ El), Hlog.
  split; [exact Hb |]. split; [reflexivity |].
  destruct (decimate_ok _ _ Hdec) as (xs & ys & b' & pts & _ & _ & Hb' & _ & Eout).
  unfold Inputs.fieldCompute in Hb'. unfold Inputs.fieldCompute in Hb.
  rewrite Hb in Hb'. injection Hb' as <-.
  destruct (BlockReduce_filter_lengths _ _ _ _ Eout) as [L1 L2].
  cbn [fst snd] in L1, L2.
  split; [| split; [exact L1 | exact Hfit]].
  etransitivity; [exact L2 |].
  unfold series_sub. rewrite length_map. apply Nat.le_min_r.
Qed.

Lemma normal_run_effects_witness :
  exists s p,
    result (script example_world) = Ok (s, p)
    /\ length (log (script example_world)) = 12%nat
    /\ (length (magField p) <= 4)%nat
    /\ existsb isnan (magField p) = false.
Proof.
  destruct example_run_ends_normally as (s & p & E).
  destruct (normal_run_effects example_world s p E)
    as (b & Hb & Hlog & Hle & _ & Hfit).
  exists s, p. split; [exact E |]. split; [rewrite Hlog; reflexivity |].
  split; [| exact Hfit].
  assert (Hs : data s = example_csv).
  { destruct (script_ok _ _ _ E) as [C _]. destruct C as (Hdf & _).
    cbn in Hdf. injection Hdf as <-. reflexivity. }
  rewrite Hs in Hb. cbn in Hb. injection Hb as <-. exact Hle.
Defined.

(** X11: The destination is opened last: in the world where a run ends
    normally, take away the right to write the raster, and the run does
    all the same work, shows the three figures, and only then ends with
    the I/O error, without the raster and without the final show. *)
Theorem unwritable_destination_fails_last :
  forall (X : Externals) (e : exn) (s : Site) (p : Products),
    result (script X) = Ok (s, p) ->
    exists pre,
      log (script X)
      = pre ++ [EvRasterWrite tif_path (raster_of (region p) (reducedMag p));
                EvShow]
      /\ script (with_unwritable_destination e X) = (pre, Raise e)
      /\ In (EvFigure "Magnetic anomaly reduced to pole") pre
      /\ existsb is_raster_write pre = false.
Proof.
  intros X e s p. rewrite !script_unfold.
  change (load (with_unwritable_destination e X)) with (load X).
  destruct (result (load X)) as [s' | e'] eqn:El;
    [| rewrite result_pair; discriminate].
  cbv zeta.
  destruct (result (post_process X _ _ _)) as [p' | e'] eqn:Ep;
    rewrite result_pair, log_pair; [| discriminate].
  intros H. injection H as <- <-.
  destruct (post_process_log _ _ _ _ _ e Ep)
    as (b & pre & Hb & Hpre & Hlog & Hun).
  exists (log (load X) ++ pre).
  rewrite Hlog, Hun, result_pair, log_pair, <- app_assoc.
  split; [reflexivity |]. split; [reflexivity |].
  rewrite (load_log_ok _ _ El), Hpre. split.
  - cbn. auto 12.
  - reflexivity.
Qed.

Lemma unwritable_destination_fails_last_witness :
  exists pre,
    script (with_unwritable_destination (OSError tif_path) example_world)
    = (pre, Raise (OSError tif_path))
    /\ In (EvFigure "Magnetic anomaly reduced to pole") pre
    /\ existsb is_raster_write pre = false.
Proof.
  destruct example_run_ends_normally as (s & p & E).
  destruct (unwritable_destination_fails_last example_world
              (OSError tif_path) s p E) as (pre & _ & Hun & Hfig & Hno).
  exists pre. auto.
Defined.
(** ** A file without rows *)



(** ** Every decimated point has a pixel *)

(** Along an axis of at least 100, at spacing 1, every position between
    the two ends has a node line at most 2 below it. *)
Lemma grid_lines_near (a b x : Q) :
  100 <= b - a -> a <= x -> x <= b ->
  exists i v,
    nth_error (grid_lines a b 1) i = Some v /\ 0 <= x - v /\ x - v <= 2.
Proof.
  intros Hspan Hax Hxb. unfold grid_lines.
  set (q := (b - a) / 1).
  assert (Eq : q == b - a) by (unfold q; field; discriminate).
  pose proof (round_half_even_ge_floor q) as HR.
  assert (Hfl : (100 <= Qfloor q)%Z).
  { assert (Hq : inject_Z 100 <= q) by (rewrite Eq; exact Hspan).
    apply Qfloor_resp_le in Hq. rewrite Qfloor_Z in Hq. exact Hq. }
  set (R := round_half_even q) in *.
  assert (Hnum : Z.to_nat (R + 1) = S (S (Z.to_nat (R - 1)))) by lia.
  rewrite Hnum. unfold linspace.
  replace (S (S (Z.to_nat (R - 1))) - 1)%nat with (Z.to_nat R) by lia.
  set (M := inject_Z (Z.of_nat (Z.to_nat R))).
  assert (EM : M = inject_Z R) by (unfold M; rewrite Z2Nat.id by lia; reflexivity).
  assert (HMq : q - 1 < M).
  { rewrite EM. pose proof (Qlt_floor q) as Hlt.
    rewrite inject_Z_plus in Hlt.
    assert (Hle : inject_Z (Qfloor q) <= inject_Z R) by (rewrite <- Zle_Qle; exact HR).
    change (inject_Z 1) with 1 in Hlt. lra. }
  assert (HM0 : 0 < M) by lra.
  set (step := (b - a) / M).
  assert (Estep : M * step == b - a).
  { unfold step. field. intros H0. rewrite H0 in HM0. discriminate. }
  assert (Hstep0 : 0 < step).
  { unfold step. apply Qlt_shift_div_l; [exact HM0 | lra]. }
  assert (Hstep2 : step <= 2).
  { unfold step. apply Qle_shift_div_r; [exact HM0 | lra]. }
  set (t := (x - a) / step).
  assert (Et : t * step == x - a).
  { unfold t. field. intros H0. rewrite H0 in Hstep0. discriminate. }
  assert (Ht0 : 0 <= t).
  { unfold t. apply Qle_shift_div_l; [exact Hstep0 | lra]. }
  assert (HtM : t <= M).
  { unfold t. apply Qle_shift_div_r; [exact Hstep0 | lra]. }
  assert (Hf0 : (0 <= Qfloor t)%Z).
  { change 0 with (inject_Z 0) in Ht0.
    apply Qfloor_resp_le in Ht0. rewrite Qfloor_Z in Ht0. exact Ht0. }
  assert (HfR : (Qfloor t <= R)%Z).
  { rewrite EM in HtM. apply Qfloor_resp_le in HtM.
    rewrite Qfloor_Z in HtM. exact HtM. }
  set (i := Z.to_nat (Qfloor t)).
  assert (EI : inject_Z (Z.of_nat i) = inject_Z (Qfloor t))
    by (unfold i; rewrite Z2Nat.id by lia; reflexivity).
  exists i, (a + inject_Z (Z.of_nat i) * step).
  split.
  - rewrite nth_error_map, nth_error_seq.
    destruct (Nat.ltb_spec i (S (S (Z.to_nat (R - 1))))) as [_ | Hge];
      [reflexivity | unfold i in Hge; lia].
  - rewrite EI.
    pose proof (Qfloor_le t) as Hlo. pose proof (Qlt_floor t) as Hhi.
    rewrite inject_Z_plus in Hhi. change (inject_Z 1) with 1 in Hhi.
    assert (H1 : inject_Z (Qfloor t) * step <= t * step)
      by (apply Qmult_le_compat_r; [exact Hlo | lra]).
    assert (H2 : t * step <= (inject_Z (Qfloor t) + 1) * step)
      by (apply Qmult_le_compat_r; lra).
    split; lra.
Qed.

Lemma square_le_4 (u : Q) : 0 <= u -> u <= 2 -> u * u <= 4.
Proof.
  intros H0 H2.
  assert (H : u * u <= 2 * 2)
    by (apply Qmult_le_compat_nonneg; split; assumption).
  lra.
Qed.

(** X13: The raster of a run that ends normally is never empty of data:
    there is at least one decimated point, and each of them has a pixel
    that holds a number, on a node at most 2 west and 2 south of the
    point (squared distance at most 8). *)
Theorem every_point_has_a_pixel :
  forall (X : Externals) (s : Site) (p : Products),
    result (script X) = Ok (s, p) ->
    exists r,
      rasters_written (log (script X)) = [(tif_path, r)]
      /\ coordinates p <> []
      /\ forall pt, In pt (coordinates p) ->
           exists k j n e v,
             (k < ra_height r)%nat
             /\ (j < ra_width r)%nat
             /\ nth_error (ds_coords0 (gridReduced p)) (ra_height r - 1 - k)
                = Some n
             /\ nth_error (ds_coords1 (gridReduced p)) j = Some e
             /\ dist2 pt (e, n) <= 8
             /\ at2 (ra_band1 r) k j = Some (Some v).
Proof.
  intros X s p H.
  destruct (run_shape X s p H) as (S0 & S1 & L0 & L1).
  destruct (run_grid_facts X s p H)
    as (sq & vs & iq & dq & E0 & E1 & _ & _ & _ & _ & Hcell).
  destruct (script_ok X s p H) as [C Hw].
  destruct C as (_ & _ & _ & _ & (box & Ebox & Ereg) & _).
  destruct (get_region_ordered _ _ Ebox) as [Hwe Hsn].
  exists (raster_of (region p) (reducedMag p)).
  cbn [raster_of ra_height ra_width ra_band1].
  split; [exact Hw |]. split.
  - intros Hnil. rewrite Hnil in Ebox. discriminate.
  - intros [x y] Hin.
    destruct (get_region_bounds _ _ Ebox x y Hin) as (A & B & Cs & D).
    assert (Hreg : r_west (region p) == r_west box - 50
                   /\ r_east (region p) == r_east box + 50
                   /\ r_south (region p) == r_south box - 50
                   /\ r_north (region p) == r_north box + 50).
    { rewrite Ereg. unfold pad_region. cbn [r_west r_east r_south r_north].
      repeat split; reflexivity. }
    destruct Hreg as (Rw & Re & Rs & Rn).
    destruct (grid_lines_near (r_west (region p)) (r_east (region p)) x)
      as (j & e & Hj & He0 & He2); [lra | lra | lra |].
    destruct (grid_lines_near (r_south (region p)) (r_north (region p)) y)
      as (i & n & Hi & Hn0 & Hn2); [lra | lra | lra |].
    rewrite <- E0 in Hi. rewrite <- E1 in Hj.
    assert (Hil : (i < length (ds_coords0 (gridReduced p)))%nat)
      by (apply nth_error_Some; rewrite Hi; discriminate).
    assert (Hjl : (j < length (ds_coords1 (gridReduced p)))%nat)
      by (apply nth_error_Some; rewrite Hj; discriminate).
    assert (Hd : dist2 (x, y) (e, n) <= 8).
    { unfold dist2. cbn [fst snd].
      pose proof (square_le_4 (x - e) He0 He2).
      pose proof (square_le_4 (y - n) Hn0 Hn2). lra. }
    assert (W : within (coordinates p) 20 (e, n) = true).
    { apply within_iff. exists (x, y). split; [exact Hin | lra]. }
    set (h := shape0 (reducedMag p)) in *.
    assert (Hk : (h - 1 - (h - 1 - i) = i)%nat) by lia.
    exists (h - 1 - i)%nat, j, n, e, (x_rtp_kernel X vs iq dq i j).
    rewrite Hk.
    repeat match goal with |- _ /\ _ => split end; try assumption; try lia.
    rewrite (run_band_cell X s p _ j H) by (fold h; lia).
    fold h. rewrite Hk, Hcell, Hi, Hj, W. reflexivity.
Qed.

Lemma example_run_coordinates (s : Site) (p : Products) :
  result (script example_world) = Ok (s, p) ->
  coordinates p = [(1 # 2, 1); (15 # 2, 2)].
Proof.
  intros E. destruct (script_ok _ _ _ E) as [C _].
  destruct C as (Hdf & _ & _ & Hdec & _).
  cbn [example_world x_read_csv] in Hdf. injection Hdf as Hdf.
  rewrite <- Hdf in Hdec.
  assert (Hex : decimate example_csv
                = Ok ([(1 # 2, 1); (15 # 2, 2)], [Some 10; Some 0]))
    by (vm_compute; reflexivity).
  rewrite Hex in Hdec. injection Hdec as <- _. reflexivity.
Qed.

Lemma every_point_has_a_pixel_witness :
  exists s p r,
    result (script example_world) = Ok (s, p)
    /\ rasters_written (log (script example_world)) = [(tif_path, r)]
    /\ coordinates p = [(1 # 2, 1); (15 # 2, 2)]
    /\ exists k j n e v,
         (k < ra_height r)%nat
         /\ (j < ra_width r)%nat
         /\ nth_error (ds_coords0 (gridReduced p)) (ra_height r - 1 - k)
            = Some n
         /\ nth_error (ds_coords1 (gridReduced p)) j = Some e
         /\ dist2 (1 # 2, 1) (e, n) <= 8
         /\ at2 (ra_band1 r) k j = Some (Some v).
Proof.
  destruct example_run_ends_normally as (s & p & E).
  destruct (every_point_has_a_pixel example_world s p E) as (r & Hw & _ & Hpx).
  pose proof (example_run_coordinates s p E) as Hc.
  exists s, p, r. split; [exact E |]. split; [exact Hw |].
  split; [exact Hc |].
  apply Hpx. rewrite Hc. left. reflexivity.
Defined.
